(** * GPflow/misc.py: helper routines, embedded and verified

    A shallow embedding of [GPflow/misc.py].  Python values are an inductive
    type, exceptions are values of [exn], fallible functions return
    [Result], and the functions that mutate a graph's collections thread the
    graph explicitly.  The NumPy and TensorFlow operations the module calls
    ([np.isscalar], [np.tril_indices], [tf.scatter_nd], [tf.map_fn],
    [Graph.get_collection_ref], attribute look-up on dtype objects, ...) are
    modelled by their documented behaviour, next to the function that uses
    them. *)

From stdpp Require Import base option list gmap strings.
From Stdlib Require Import ZArith Lia.

Local Open Scope string_scope.
Local Open Scope nat_scope.
Local Open Scope list_scope.

(** ** Exceptions and results *)

(** The exception classes that [misc.py] raises or lets through
    ([InvalidArgumentError] is [tf.errors.InvalidArgumentError]).  The
    payload is the message. *)
Inductive exn : Type :=
  | ValueError (msg : string)
  | KeyError (msg : string)
  | AttributeError (msg : string)
  | TypeError (msg : string)
  | InvalidArgumentError (msg : string)
  | GPflowError (msg : string).

(** [type(e).__name__] *)
Definition exn_class_name (e : exn) : string :=
  match e with
  | ValueError _ => "ValueError"
  | KeyError _ => "KeyError"
  | AttributeError _ => "AttributeError"
  | TypeError _ => "TypeError"
  | InvalidArgumentError _ => "InvalidArgumentError"
  | GPflowError _ => "GPflowError"
  end.

Definition exn_message (e : exn) : string :=
  match e with
  | ValueError m | KeyError m | AttributeError m | TypeError m
  | InvalidArgumentError m | GPflowError m => m
  end.

Inductive Result (A : Type) : Type :=
  | Ok (a : A)
  | Raise (e : exn).
Arguments Ok {A} a.
Arguments Raise {A} e.

Definition bind {A B} (r : Result A) (k : A -> Result B) : Result B :=
  match r with
  | Ok a => k a
  | Raise e => Raise e
  end.

Notation "'let*' x ':=' r 'in' k" := (bind r (fun x => k))
  (at level 10, x name, r at level 100, k at level 200).

(** The double-quote character, for messages that quote a value. *)
Definition dquote : string := String (Ascii.ascii_of_nat 34) EmptyString.

(** [sub in s] for strings. *)
Fixpoint str_contains (sub s : string) : bool :=
  String.prefix sub s ||
  match s with
  | EmptyString => false
  | String _ s' => str_contains sub s'
  end.

(** ** Tensor names *)

(** [sep.join(parts)] *)
Fixpoint str_join (sep : string) (parts : list string) : string :=
  match parts with
  | [] => EmptyString
  | [s] => s
  | s :: rest => s +:+ sep +:+ str_join sep rest
  end.

(** [tensor_name]: the positional arguments arrive as the tuple
    [subnames]; the body is [return '/'.join(subnames)]. *)
Definition tensor_name (subnames : list string) : string :=
  str_join "/" subnames.

(** The character ['/'] and the test ['/' in s]. *)
Definition slash : Ascii.ascii := Ascii.ascii_of_nat 47.
Definition has_slash (s : string) : bool := str_contains "/" s.

(** The text after a segment: nothing, or a slash and more. *)
Definition after_segment (r : string) : Prop :=
  r = EmptyString ∨ ∃ r', r = String slash r'.

(** ** Python values *)

(** NumPy scalar types ([np.float32] and the like, subclasses of
    [np.generic]) and TensorFlow element types ([tf.float32], ...). *)
Inductive np_scalar_type : Type :=
  | np_bool_ | np_int8 | np_int16 | np_int32 | np_int64 | np_uint8
  | np_float16 | np_float32 | np_float64 | np_complex128
  | np_object_ | np_str_ | np_bytes_.

Inductive tf_dtype : Type :=
  | tf_bool | tf_int8 | tf_int16 | tf_int32 | tf_int64 | tf_uint8
  | tf_float16 | tf_float32 | tf_float64 | tf_complex128 | tf_string.

Global Instance np_scalar_type_eq_dec : EqDecision np_scalar_type.
Proof. solve_decision. Defined.
Global Instance tf_dtype_eq_dec : EqDecision tf_dtype.
Proof. solve_decision. Defined.

(** A graph tensor and a graph variable: the name they have in their graph,
    their element type and, for a variable, the text [str()] gives. *)
Record Tensor : Type := mkTensor { t_name : string; t_dtype : tf_dtype }.
Record TfVariable : Type :=
  mkVariable { v_name : string; v_dtype : tf_dtype; v_repr : string }.

Global Instance Tensor_eq_dec : EqDecision Tensor.
Proof. solve_decision. Defined.
Global Instance TfVariable_eq_dec : EqDecision TfVariable.
Proof. solve_decision. Defined.

(** The values the helpers of [misc.py] are called with.  Floats carry their
    IEEE-754 binary64 bit pattern, NumPy scalars and arrays their raw items;
    none of the functions below looks at them. *)
#[warnings="-register-all"] Inductive PyValue : Type :=
  | PyNone
  | PyBool (b : bool)
  | PyInt (n : Z)
  | PyFloat (bits : Z)
  | PyComplex (re_bits im_bits : Z)
  | PyStr (s : string)
  | PyBytes (s : string)
  | PyList (items : list PyValue)
  | PyNpScalar (t : np_scalar_type) (item : Z)
      (* an instance of a NumPy scalar type, [np.float32(1.5)] *)
  | PyNdarray (t : np_scalar_type) (shape : list nat) (items : list Z)
  | PyNpType (t : np_scalar_type)
      (* the type object itself, [np.float32] *)
  | PyNpDtype (t : np_scalar_type)
      (* a [np.dtype] instance, [np.dtype('float32')] *)
  | PyTfDType (d : tf_dtype)
  | PyTensor (x : Tensor)
  | PyVariable (x : TfVariable)
  | PyGetSetDescriptor (owner attr : string).
      (* what a C-level attribute of a class gives when it is read on the
         class instead of on an instance *)

(** ** Value classification *)

(** [isinstance(value, np.ndarray)] *)
Definition is_ndarray (value : PyValue) : bool :=
  match value with
  | PyNdarray _ _ _ => true
  | _ => false
  end.

(** [isinstance(value, (tf.Tensor, tf.Variable))] *)
Definition is_tensor (value : PyValue) : bool :=
  match value with
  | PyTensor _ | PyVariable _ => true
  | _ => false
  end.

(** [isinstance(value, str)]: [str] itself and its subclass [np.str_]. *)
Definition isinstance_str (value : PyValue) : bool :=
  match value with
  | PyStr _ => true
  | PyNpScalar np_str_ _ => true
  | _ => false
  end.

(** [isinstance(num, np.generic)] *)
Definition isinstance_np_generic (num : PyValue) : bool :=
  match num with
  | PyNpScalar _ _ => true
  | _ => false
  end.

(** [type(num) in np.ScalarType]: [int], [float], [complex], [bool],
    [bytes], [str] and the NumPy scalar types. *)
Definition type_in_ScalarType (num : PyValue) : bool :=
  match num with
  | PyBool _ | PyInt _ | PyFloat _ | PyComplex _ _ | PyStr _ | PyBytes _
  | PyNpScalar _ _ => true
  | _ => false
  end.

(** [isinstance(num, numbers.Number)] *)
Definition isinstance_Number (num : PyValue) : bool :=
  match num with
  | PyBool _ | PyInt _ | PyFloat _ | PyComplex _ _ => true
  | PyNpScalar t _ =>
      match t with
      | np_object_ | np_str_ | np_bytes_ | np_bool_ => false
      | _ => true
      end
  | _ => false
  end.

(** [np.isscalar(num)] *)
Definition np_isscalar (num : PyValue) : bool :=
  isinstance_np_generic num || type_in_ScalarType num || isinstance_Number num.

(** [value is not None] *)
Definition is_not_None (value : PyValue) : bool :=
  match value with
  | PyNone => false
  | _ => true
  end.

(** [return (not isinstance(value, str)) and np.isscalar(value)] *)
Definition is_number (value : PyValue) : bool :=
  negb (isinstance_str value) && np_isscalar value.

(** [return ((value is not None) and is_number(value) or is_ndarray(value)
    or is_tensor(value))]: [and] binds tighter than [or]. *)
Definition is_valid_param_value (value : PyValue) : bool :=
  (is_not_None value && is_number value) || is_ndarray value || is_tensor value.

(** The reading of the specification: non-null and one of the three. *)
Definition is_valid_param_value_spec (value : PyValue) : bool :=
  is_not_None value && (is_number value || is_ndarray value || is_tensor value).

(** ** The computation graph *)

(** What [misc.py] uses of a [tf.Graph]: the look-up of a tensor by its
    [name:index] address, which returns the tensor or raises (a [KeyError]
    when nothing is at the address, a [ValueError] when the address is not
    well formed), and the named collections, each a Python list owned by the
    graph.  [g_repr] is the text [str()] gives of the graph. *)
Record Graph : Type := mkGraph {
  g_repr : string;
  g_get_tensor_by_name : string -> Result Tensor;
  g_collections : gmap string (list TfVariable)
}.

(** [tf.get_default_graph() if graph is None else graph] *)
Definition _get_graph (default_graph : Graph) (graph : option Graph) : Graph :=
  match graph with
  | None => default_graph
  | Some g => g
  end.

(** [_get_tensor_by_name]: the look-up of [':'.join([name, index])], with
    [except KeyError: return None]; any other exception passes through. *)
Definition _get_tensor_by_name (name index : string) (graph : Graph)
  : Result (option Tensor) :=
  match g_get_tensor_by_name graph (str_join ":" [name; index]) with
  | Ok t => Ok (Some t)
  | Raise (KeyError _) => Ok None
  | Raise e => Raise e
  end.

Definition ambiguous_tensor_msg (name : string) : string :=
  "Ambiguous tensor for " +:+ dquote +:+ name +:+ dquote
  +:+ " with multiple indices found.".

(** [get_tensor_by_name(name, index=None, graph=None)] *)
Definition get_tensor_by_name (default_graph : Graph) (name : string)
    (index : option string) (graph : option Graph) : Result (option Tensor) :=
  let graph := _get_graph default_graph graph in
  match index with
  | Some index => _get_tensor_by_name name index graph
  | None =>
      let* tensor := _get_tensor_by_name name "0" graph in
      match tensor with
      | None => Ok tensor
      | Some _ =>
          let* other := _get_tensor_by_name name "1" graph in
          match other with
          | Some _ => Raise (ValueError (ambiguous_tensor_msg name))
          | None => Ok tensor
          end
      end
  end.

(** A graph whose tensors are those of a table of addresses. *)
Definition graph_of_tensors (repr : string) (ts : list (string * Tensor))
    (colls : gmap string (list TfVariable)) : Graph :=
  {| g_repr := repr;
     g_get_tensor_by_name := fun addr =>
       match (list_to_map ts : gmap string Tensor) !! addr with
       | Some t => Ok t
       | None => Raise (KeyError addr)
       end;
     g_collections := colls |}.

(** ** The trainables collection *)

(** [tf.GraphKeys.TRAINABLE_VARIABLES] *)
Definition __TRAINABLES : string := "trainable_variables".

(** [graph.get_collection(name)]: a fresh list with the items of the
    collection, empty when the graph has no such collection. *)
Definition get_collection (graph : Graph) (name : string) : list TfVariable :=
  default [] (g_collections graph !! name).

Definition set_collection (name : string) (l : list TfVariable) (graph : Graph)
  : Graph :=
  {| g_repr := g_repr graph;
     g_get_tensor_by_name := g_get_tensor_by_name graph;
     g_collections := <[name := l]> (g_collections graph) |}.

(** [graph.add_to_collection(name, value)]: appends to the graph's list,
    which is created when missing. *)
Definition add_to_collection (name : string) (value : TfVariable)
    (graph : Graph) : Graph :=
  set_collection name (get_collection graph name ++ [value]) graph.

(** A handle on a list that the graph owns: reads and writes through it go
    to the graph's own list. *)
Inductive collection_ref : Type := CollectionRef (name : string).

(** [graph.get_collection_ref(name)]: the list itself, not a copy; an empty
    list is stored in the graph first when the collection is missing. *)
Definition get_collection_ref (name : string) (graph : Graph)
  : collection_ref * Graph :=
  match g_collections graph !! name with
  | Some _ => (CollectionRef name, graph)
  | None => (CollectionRef name, set_collection name [] graph)
  end.

(** The list a handle stands for. *)
Definition deref (r : collection_ref) (graph : Graph) : list TfVariable :=
  match r with CollectionRef name => get_collection graph name end.

(** [list.remove(x)] on a list value: drops the first item equal to [x],
    [None] (a [ValueError] in Python) when there is none. *)
Fixpoint list_remove (x : TfVariable) (l : list TfVariable)
  : option (list TfVariable) :=
  match l with
  | [] => None
  | y :: l' =>
      if decide (y = x) then Some l'
      else match list_remove x l' with
           | Some r => Some (y :: r)
           | None => None
           end
  end.

(** [r.remove(x)] through a handle: the graph's list is changed in place. *)
Definition ref_remove (r : collection_ref) (x : TfVariable) (graph : Graph)
  : Result unit * Graph :=
  match list_remove x (deref r graph) with
  | Some l' =>
      match r with CollectionRef name => (Ok tt, set_collection name l' graph) end
  | None => (Raise (ValueError "list.remove(x): x not in list"), graph)
  end.

(** [if variable not in graph.get_collection(__TRAINABLES):
       graph.add_to_collection(__TRAINABLES, variable)]
    The result is the resolved graph after the call. *)
Definition add_to_trainables (default_graph : Graph) (variable : TfVariable)
    (graph : option Graph) : Result unit * Graph :=
  let graph := _get_graph default_graph graph in
  if bool_decide (variable ∉ get_collection graph __TRAINABLES)
  then (Ok tt, add_to_collection __TRAINABLES variable graph)
  else (Ok tt, graph).

Definition not_found_msg (variable : TfVariable) (graph : Graph) : string :=
  "TensorFlow variable " +:+ v_repr variable
  +:+ " not found in the graph " +:+ g_repr graph.

(** [remove_from_trainables(variable, graph=None)] *)
Definition remove_from_trainables (default_graph : Graph)
    (variable : TfVariable) (graph : option Graph) : Result unit * Graph :=
  let graph := _get_graph default_graph graph in
  let '(trainables, graph) := get_collection_ref __TRAINABLES graph in
  if bool_decide (variable ∉ deref trainables graph)
  then (Raise (GPflowError (not_found_msg variable graph)), graph)
  else ref_remove trainables variable graph.

(** The trainables of a graph, as a membership query sees them. *)
Definition trainables (graph : Graph) : list TfVariable :=
  get_collection graph __TRAINABLES.

(** How many items of a collection are the variable [x]. *)
Definition occurrences (x : TfVariable) (l : list TfVariable) : nat :=
  count_occ TfVariable_eq_dec l x.

(** ** Dtype normalisation *)

(** [tf.DType.as_numpy_dtype]: the NumPy scalar type (a type object, such as
    [np.float64]) that TensorFlow's table gives for the element type. *)
Definition as_numpy_dtype (d : tf_dtype) : PyValue :=
  PyNpType
    match d with
    | tf_bool => np_bool_
    | tf_int8 => np_int8
    | tf_int16 => np_int16
    | tf_int32 => np_int32
    | tf_int64 => np_int64
    | tf_uint8 => np_uint8
    | tf_float16 => np_float16
    | tf_float32 => np_float32
    | tf_float64 => np_float64
    | tf_complex128 => np_complex128
    | tf_string => np_object_
    end.

(** [value.dtype].  Arrays and NumPy scalars have a dtype; a tensor's
    [dtype] is a [tf.DType].  On a NumPy scalar type (the class, not an
    instance) the attribute is the unbound descriptor of [numpy.generic].
    Dtype objects and the built-in values have no such attribute. *)
Definition getattr_dtype (value : PyValue) : Result PyValue :=
  match value with
  | PyNdarray t _ _ | PyNpScalar t _ => Ok (PyNpDtype t)
  | PyTensor x => Ok (PyTfDType (t_dtype x))
  | PyVariable x => Ok (PyTfDType (v_dtype x))
  | PyNpType _ => Ok (PyGetSetDescriptor "numpy.generic" "dtype")
  | _ => Raise (AttributeError "object has no attribute 'dtype'")
  end.

(** [d.type]: the scalar type of a [np.dtype]; nothing else that
    [getattr_dtype] returns has the attribute. *)
Definition getattr_type (d : PyValue) : Result PyValue :=
  match d with
  | PyNpDtype t => Ok (PyNpType t)
  | _ => Raise (AttributeError "object has no attribute 'type'")
  end.

(** [ty in [np.t1, np.t2, ...]] *)
Definition py_in_types (ty : PyValue) (l : list np_scalar_type) : bool :=
  match ty with
  | PyNpType t => bool_decide (t ∈ l)
  | _ => false
  end.

Definition np_to_tf (t : np_scalar_type) : tf_dtype :=
  match t with
  | np_bool_ => tf_bool
  | np_int8 => tf_int8
  | np_int16 => tf_int16
  | np_int32 => tf_int32
  | np_int64 => tf_int64
  | np_uint8 => tf_uint8
  | np_float16 => tf_float16
  | np_float32 => tf_float32
  | np_float64 => tf_float64
  | np_complex128 => tf_complex128
  | np_object_ | np_str_ | np_bytes_ => tf_string
  end.

(** [tf.as_dtype(value)]: a [tf.DType] is returned as it is, a NumPy type or
    dtype is converted, anything else is a [TypeError]. *)
Definition tf_as_dtype (value : PyValue) : Result PyValue :=
  match value with
  | PyTfDType d => Ok (PyTfDType d)
  | PyNpType t | PyNpDtype t => Ok (PyTfDType (np_to_tf t))
  | _ => Raise (TypeError "Cannot convert value to a TensorFlow DType.")
  end.

Section Normalize.
(** [FLOAT_TYPE = settings.dtypes.float_type], read once at import from
    the settings module, and the text [str.format] gives of a value. *)
Variable FLOAT_TYPE : PyValue.
Variable py_format : PyValue -> string.

Definition unknown_dtype_msg (value : PyValue) : string :=
  "Unknown dtype " +:+ dquote +:+ py_format value +:+ dquote +:+ ".".

(** [normalize_dtype(value)] *)
Definition normalize_dtype (value : PyValue) : Result PyValue :=
  let '(tf_type, value) :=
    match value with
    | PyTfDType d => (true, as_numpy_dtype d)
    | _ => (false, value)
    end in
  let* dt := getattr_dtype value in
  let* ty := getattr_type dt in
  let* value :=
    if py_in_types ty [np_float32; np_float64] then Ok FLOAT_TYPE
    else if py_in_types ty [np_int16; np_int32; np_int64]
         then Ok (PyNpType np_int32)
         else Raise (ValueError (unknown_dtype_msg value)) in
  if negb tf_type then Ok value else tf_as_dtype value.
End Normalize.

(** [NP_FLOAT_TYPE = np.float32 if FLOAT_TYPE is tf.float32 else np.float64]:
    the test is the identity of the configured object with [tf.float32]. *)
Definition NP_FLOAT_TYPE (FLOAT_TYPE : PyValue) : PyValue :=
  match FLOAT_TYPE with
  | PyTfDType tf_float32 => PyNpType np_float32
  | _ => PyNpType np_float64
  end.

(** ** Packing vectors into lower triangles *)

(** [np.tri(N, N, 0, dtype=bool)]: entry [(i, j)] is [j <= i]. *)
Definition np_tri (N : nat) : list (list bool) :=
  (fun i => (fun j => bool_decide (j ≤ i)) <$> seq 0 N) <$> seq 0 N.

(** [np.nonzero] of a matrix: the coordinates of the true entries in
    row-major order, as the array of rows and the array of columns. *)
Definition np_nonzero (m : list (list bool)) : list nat * list nat :=
  let coords :=
    mjoin (imap (fun i row =>
                   mjoin (imap (fun j (b : bool) =>
                                  if b then [(i, j)] else []) row)) m) in
  (coords.*1, coords.*2).

(** [np.tril_indices(N)] is [nonzero(tri(N, N, 0, dtype=bool))]. *)
Definition np_tril_indices (N : nat) : list nat * list nat :=
  np_nonzero (np_tri N).

(** The specification's enumeration: the lower-triangle coordinates of an
    [N]-by-[N] matrix, row after row, each row from column 0 to the
    diagonal. *)
Definition lower_triangle_row_major (N : nat) : list (nat * nat) :=
  i ← seq 0 N; (fun j => (i, j)) <$> seq 0 (S i).

Definition entry {A} (m : list (list A)) (i j : nat) : option A :=
  m !! i ≫= fun row => row !! j.

(** A matrix of [rows] rows of [cols] items each. *)
Definition has_shape {A} (rows cols : nat) (m : list (list A)) : Prop :=
  length m = rows ∧ Forall (λ row, length row = cols) m.

(** A [D x M] tensor of vectors: the length [M] that its shape gives every
    vector, known whatever the number [D] of vectors, and the vectors. *)
Record Batch (A : Type) : Type :=
  mkBatch { vec_len : nat; vecs : list (list A) }.
Arguments mkBatch {A} vec_len vecs.
Arguments vec_len {A} b.
Arguments vecs {A} b.

(** Every vector of the batch has the length the shape says. *)
Definition well_shaped {A} (b : Batch A) : Prop :=
  Forall (λ v, length v = vec_len b) (vecs b).

(** The body of a [tf.map_fn], as the graph sees it: the check of the
    shapes, made once when the body is built for an item of a given
    length, and the computation on an item. *)
Record graph_fn (X Y : Type) : Type :=
  mkGraphFn { on_shape : nat -> Result unit; on_item : X -> Result Y }.
Arguments mkGraphFn {X Y} on_shape on_item.
Arguments on_shape {X Y} g n.
Arguments on_item {X Y} g x.

(** The shapes [tf.scatter_nd] accepts for a vector of [n_updates] updates
    and an output of rank two: [indices] must be a matrix with one row of
    two coordinates per update.  The tensor made from an empty Python list
    has shape [0], not [0, 2], and is refused with every vector of
    updates. *)
Definition scatter_nd_shapes (indices : list (list nat)) (n_updates : nat)
  : Result unit :=
  match indices with
  | [] => Raise (ValueError "scatter_nd: shapes of indices and updates do not match")
  | _ =>
      if bool_decide (Forall (fun ix => length ix = 2) indices
                      ∧ length indices = n_updates)
      then Ok tt
      else Raise (ValueError "scatter_nd: shapes of indices and updates do not match")
  end.


Section VecToTri.
(** The element type of the tensors, with the zero that [tf.scatter_nd]
    fills its output with and the addition it accumulates updates with. *)
Context {A : Type} (zero : A) (add : A -> A -> A).

Definition zeros (rows cols : nat) : list (list A) :=
  replicate rows (replicate cols zero).

(** [out[i][j] += u] *)
Definition add_at (i j : nat) (u : A) (out : list (list A)) : list (list A) :=
  alter (alter (fun x => add x u) j) i out.

(** The updates one after the other, as a left fold over the coordinates
    paired with their updates. *)
Definition scatter_fold (out : list (list A)) (cs : list (nat * nat))
    (us : list A) : list (list A) :=
  foldl (λ o pu, add_at pu.1.1 pu.1.2 pu.2 o) out (zip cs us).

(** The updates applied in order; an index outside the output is an
    error. *)
Fixpoint scatter_updates (rows cols : nat) (indices : list (list nat))
    (updates : list A) (out : list (list A)) : Result (list (list A)) :=
  match indices, updates with
  | [i; j] :: indices', u :: updates' =>
      if bool_decide (i < rows ∧ j < cols)
      then scatter_updates rows cols indices' updates' (add_at i j u out)
      else Raise (InvalidArgumentError "scatter_nd: index out of bounds")
  | _, _ => Ok out
  end.

(** [tf.scatter_nd(indices, updates, shape=[rows, cols])] for a vector of
    updates: the shapes are checked, then the updates are added into a
    matrix of zeros. *)
Definition scatter_nd (indices : list (list nat)) (rows cols : nat)
    (updates : list A) : Result (list (list A)) :=
  let* _ := scatter_nd_shapes indices (length updates) in
  scatter_updates rows cols indices updates (zeros rows cols).

(** The body run on each item in turn, the results stacked. *)
Fixpoint run_each {X Y} (fn : X -> Result Y) (elems : list X)
  : Result (list Y) :=
  match elems with
  | [] => Ok []
  | x :: elems' =>
      let* y := fn x in
      let* ys := run_each fn elems' in
      Ok (y :: ys)
  end.

(** [tf.map_fn(fn, elems)]: the body is built once, for an item of the
    length the shape of [elems] gives, whatever the number of items, and an
    error of its shape check is raised then; the body is then run on each
    item and the results are stacked. *)
Definition map_fn {Y} (fn : graph_fn (list A) Y) (elems : Batch A)
  : Result (list Y) :=
  let* _ := on_shape fn (vec_len elems) in
  run_each (on_item fn) (vecs elems).

(** [vec_to_tri(vectors, N)] *)
Definition vec_to_tri (vectors : Batch A) (N : nat)
  : Result (list (list (list A))) :=
  let indices := let '(rs, cs) := np_tril_indices N in zip rs cs in
  let indices := (fun i : nat * nat => [i.1; i.2]) <$> indices in
  let vec_to_tri_vector :=
    mkGraphFn (scatter_nd_shapes indices)
              (fun vector => scatter_nd indices N N vector) in
  map_fn vec_to_tri_vector vectors.
End VecToTri.

(** ** Sample data for the examples *)

Definition foo0 : Tensor := mkTensor "foo:0" tf_float64.
Definition foo1 : Tensor := mkTensor "foo:1" tf_float64.

(** A graph in which an operation [foo] has two outputs. *)
Definition two_outputs_graph : Graph :=
  graph_of_tensors "<Graph two_outputs>"
    [("foo:0", foo0); ("foo:1", foo1)] ∅.

(** A graph in which [foo] has one output. *)
Definition one_output_graph : Graph :=
  graph_of_tensors "<Graph one_output>" [("foo:0", foo0)] ∅.

(** A graph without tensors that, like TensorFlow's, refuses an address
    with more than one colon (character 58) by a [ValueError]. *)
Definition strict_graph : Graph :=
  {| g_repr := "<Graph strict>";
     g_get_tensor_by_name := fun addr =>
       if bool_decide (length (filter (λ c, c = Ascii.ascii_of_nat 58)
                                 (String.list_ascii_of_string addr)) = 1)
       then Raise (KeyError addr)
       else Raise (ValueError "not a valid tensor name");
     g_collections := ∅ |}.

Definition var_w : TfVariable :=
  mkVariable "w:0" tf_float64 "<tf.Variable 'w:0' shape=() dtype=float64_ref>".
Definition var_b : TfVariable :=
  mkVariable "b:0" tf_float64 "<tf.Variable 'b:0' shape=() dtype=float64_ref>".

(** A graph whose trainables hold [var_w] twice, as two calls of
    [graph.add_to_collection] leave it. *)
Definition twice_graph : Graph :=
  add_to_collection __TRAINABLES var_w
    (add_to_collection __TRAINABLES var_w
       (graph_of_tensors "<Graph twice>" [] ∅)).

(** A graph whose trainables are [var_b; var_w]. *)
Definition bw_graph : Graph :=
  add_to_collection __TRAINABLES var_w
    (add_to_collection __TRAINABLES var_b
       (graph_of_tensors "<Graph bw>" [] ∅)).

(** The binary64 bit pattern of [5.0]. *)
Definition five_point_zero : Z := 0x4014000000000000%Z.

(** * Theorems *)

(** ** Tensor names *)

Lemma string_length_append (s1 s2 : string) :
  String.length (s1 +:+ s2) = String.length s1 + String.length s2.
Proof. induction s1 as [|c s1 IH]; simpl; [done | by rewrite IH]. Qed.

Lemma str_join_cons2 (sep s t : string) (rest : list string) :
  str_join sep (s :: t :: rest) = s +:+ sep +:+ str_join sep (t :: rest).
Proof. reflexivity. Qed.

Lemma str_join_concat (sep : string) (parts : list string) :
  str_join sep parts = String.concat sep parts.
Proof.
  induction parts as [|s parts IH]; [reflexivity|].
  destruct parts as [|t rest]; [reflexivity|].
  rewrite str_join_cons2, IH. reflexivity.
Qed.

Lemma str_join_length (sep : string) (parts : list string) :
  String.length (str_join sep parts)
  = sum_list (String.length <$> parts)
    + String.length sep * (length parts - 1).
Proof.
  induction parts as [|s parts IH]; [simpl; lia|].
  destruct parts as [|t rest]; [simpl; lia|].
  rewrite str_join_cons2, !string_length_append, IH.
  simpl. lia.
Qed.

(** C8: [tensor_name] joins its segments, in order, with ['/'] between
    them and nothing else: it is [String.concat] with that separator, it
    checks nothing about the segments (a segment that is empty or holds a
    slash is joined like any other), [tensor_name("a", "b", "c")] is
    ["a/b/c"] and [tensor_name()] is the empty string. *)
Theorem tensor_name_joins_with_slash :
  (∀ subnames, tensor_name subnames = String.concat "/" subnames)
  ∧ (∀ s, tensor_name [s] = s)
  ∧ (∀ s t rest,
       tensor_name (s :: t :: rest) = s +:+ "/" +:+ tensor_name (t :: rest))
  ∧ (∀ subnames,
       String.length (tensor_name subnames)
       = sum_list (String.length <$> subnames) + (length subnames - 1))
  ∧ tensor_name ["a"; "b"; "c"] = "a/b/c"
  ∧ tensor_name ["a/b"; EmptyString; "c"] = "a/b//c"
  ∧ tensor_name [] = EmptyString.
Proof.
  split; [intros; apply str_join_concat|].
  repeat split; try reflexivity.
  intros. unfold tensor_name. rewrite str_join_length. simpl. lia.
Qed.

(** ** Value classification *)

Lemma is_number_not_str (value : PyValue) :
  isinstance_str value = false → is_number value = np_isscalar value.
Proof. unfold is_number. by intros ->. Qed.

Lemma None_is_no_array_no_tensor :
  is_ndarray PyNone = false ∧ is_tensor PyNone = false.
Proof. done. Qed.

(** C7: [is_number(value)] is true exactly when [np.isscalar(value)] holds
    and [value] is no instance of [str]; it is true of [5] and [5.0], false
    of ["5"] and of every n-dimensional array. *)
Theorem is_number_iff_scalar_and_not_str :
  (∀ value,
     is_number value = true
     ↔ np_isscalar value = true ∧ isinstance_str value = false)
  ∧ is_number (PyInt 5) = true
  ∧ is_number (PyFloat five_point_zero) = true
  ∧ is_number (PyStr "5") = false
  ∧ (∀ t shape items, is_number (PyNdarray t shape items) = false).
Proof.
  repeat split; try reflexivity.
  - unfold is_number in H. by apply andb_prop in H as [_ ?].
  - unfold is_number in H. apply andb_prop in H as [H _].
    by apply negb_true_iff in H.
  - intros [Hs Hn]. unfold is_number. by rewrite Hs, Hn.
Qed.

(** C10: Python booleans and [bytes] objects pass [is_number], since only
    instances of [str] are set aside before the scalar check, and so they
    pass [is_valid_param_value] too. *)
Theorem is_number_accepts_bool_and_bytes :
  (∀ b, is_number (PyBool b) = true ∧ is_valid_param_value (PyBool b) = true)
  ∧ (∀ s, is_number (PyBytes s) = true
          ∧ is_valid_param_value (PyBytes s) = true)
  ∧ is_number (PyBool true) = true
  ∧ is_number (PyBytes "5") = true
  ∧ (∀ value, isinstance_str value = false →
              is_number value = np_isscalar value)
  ∧ (∀ value, is_number value = true → is_valid_param_value value = true).
Proof.
  repeat split; try reflexivity.
  - apply is_number_not_str.
  - intros value Hn. unfold is_valid_param_value. rewrite Hn.
    by destruct value.
Qed.

(** C4: [is_valid_param_value] as the code groups it,
    [(not-None and is-number) or is-array or is-tensor], agrees on every
    value with the specification's reading,
    [not-None and (is-number or is-array or is-tensor)]: the two could only
    differ on [None], which is neither an array nor a tensor. *)
Theorem is_valid_param_value_precedence_agrees :
  (∀ value, is_valid_param_value value = is_valid_param_value_spec value)
  ∧ (∀ value,
       is_valid_param_value value = true
       ↔ is_not_None value = true
         ∧ (is_number value = true ∨ is_ndarray value = true
            ∨ is_tensor value = true)).
Proof.
  assert (Hagree : ∀ value,
             is_valid_param_value value = is_valid_param_value_spec value).
  { intros value. unfold is_valid_param_value, is_valid_param_value_spec.
    destruct (is_not_None value) eqn:Hnn; [done|].
    destruct value; try discriminate Hnn. reflexivity. }
  split; [exact Hagree|].
  intros value. rewrite Hagree. unfold is_valid_param_value_spec.
  rewrite andb_true_iff, !orb_true_iff. tauto.
Qed.

(** ** Tensor look-up *)

Lemma tensor_address (name index : string) :
  str_join ":" [name; index] = name +:+ ":" +:+ index.
Proof. reflexivity. Qed.

Lemma _get_tensor_by_name_found (name index : string) (g : Graph) (t : Tensor) :
  g_get_tensor_by_name g (name +:+ ":" +:+ index) = Ok t →
  _get_tensor_by_name name index g = Ok (Some t).
Proof. unfold _get_tensor_by_name. rewrite tensor_address. by intros ->. Qed.

Lemma _get_tensor_by_name_missing (name index : string) (g : Graph) (m : string) :
  g_get_tensor_by_name g (name +:+ ":" +:+ index) = Raise (KeyError m) →
  _get_tensor_by_name name index g = Ok None.
Proof. unfold _get_tensor_by_name. rewrite tensor_address. by intros ->. Qed.

(** Only [KeyError] is caught: any other exception of the graph's look-up
    leaves [_get_tensor_by_name] as it is. *)
Lemma _get_tensor_by_name_passes_on (name index : string) (g : Graph) (e : exn) :
  g_get_tensor_by_name g (name +:+ ":" +:+ index) = Raise e →
  exn_class_name e ≠ "KeyError" →
  _get_tensor_by_name name index g = Raise e.
Proof.
  unfold _get_tensor_by_name. rewrite tensor_address. intros -> Hne.
  by destruct e.
Qed.

(** C2, as amended: with [index] omitted, [get_tensor_by_name] returns
    [None] when the graph's look-up of [name:0] reports that nothing is
    there (its [KeyError]); when both [name:0] and [name:1] resolve it
    raises a [ValueError], whose message says that the tensor for [name] is
    ambiguous; when [name:0] resolves and nothing is at [name:1] it returns
    the tensor at [name:0]. *)
Theorem get_tensor_by_name_without_index
    (default_graph : Graph) (name : string) (graph : option Graph) :
  let g := _get_graph default_graph graph in
  let result := get_tensor_by_name default_graph name None graph in
  ((∃ m, g_get_tensor_by_name g (name +:+ ":0") = Raise (KeyError m)) →
   result = Ok None)
  ∧ (∀ t0 t1,
       g_get_tensor_by_name g (name +:+ ":0") = Ok t0 →
       g_get_tensor_by_name g (name +:+ ":1") = Ok t1 →
       result = Raise (ValueError (ambiguous_tensor_msg name))
       ∧ exn_class_name (ValueError (ambiguous_tensor_msg name)) = "ValueError"
       ∧ ambiguous_tensor_msg name
         = "Ambiguous tensor for " +:+ dquote +:+ name +:+ dquote
           +:+ " with multiple indices found.")
  ∧ (∀ t0,
       g_get_tensor_by_name g (name +:+ ":0") = Ok t0 →
       (∃ m, g_get_tensor_by_name g (name +:+ ":1") = Raise (KeyError m)) →
       result = Ok (Some t0)).
Proof.
  intros g result. subst result. unfold get_tensor_by_name. fold g.
  repeat split.
  - intros [m Hm].
    by rewrite (_get_tensor_by_name_missing name "0" g m Hm).
  - rewrite (_get_tensor_by_name_found name "0" g t0 H). simpl.
    by rewrite (_get_tensor_by_name_found name "1" g t1 H0).
  - intros t0 H0 [m Hm].
    rewrite (_get_tensor_by_name_found name "0" g t0 H0). simpl.
    by rewrite (_get_tensor_by_name_missing name "1" g m Hm).
Qed.

(** The three cases of [get_tensor_by_name_without_index] on sample graphs:
    nothing at [bar:0], both [foo:0] and [foo:1], only [foo:0]. *)
Lemma get_tensor_by_name_without_index_witness :
  get_tensor_by_name one_output_graph "bar" None None = Ok None
  ∧ get_tensor_by_name one_output_graph "foo" None (Some two_outputs_graph)
    = Raise (ValueError (ambiguous_tensor_msg "foo"))
  ∧ get_tensor_by_name one_output_graph "foo" None None = Ok (Some foo0).
Proof.
  split; [|split].
  - apply (get_tensor_by_name_without_index one_output_graph "bar" None).
    exists "bar:0". reflexivity.
  - apply (get_tensor_by_name_without_index one_output_graph "foo"
             (Some two_outputs_graph)) with (t0 := foo0) (t1 := foo1);
      reflexivity.
  - apply (get_tensor_by_name_without_index one_output_graph "foo" None).
    + reflexivity.
    + exists "foo:1". reflexivity.
Defined.

(** C2, as stated, fails: on a graph that holds both [foo:0] and [foo:1] the
    call raises the built-in [ValueError]; no exception of a class named
    [AmbiguousTensorError] is raised (the module defines none). *)
Lemma ambiguous_lookup_is_a_ValueError :
  g_get_tensor_by_name two_outputs_graph "foo:0" = Ok foo0
  ∧ g_get_tensor_by_name two_outputs_graph "foo:1" = Ok foo1
  ∧ get_tensor_by_name two_outputs_graph "foo" None None
    = Raise (ValueError (ambiguous_tensor_msg "foo"))
  ∧ ¬ (∃ e, get_tensor_by_name two_outputs_graph "foo" None None = Raise e
            ∧ exn_class_name e = "AmbiguousTensorError").
Proof.
  repeat split; try reflexivity.
  intros (e & He & Hc).
  assert (Hv : get_tensor_by_name two_outputs_graph "foo" None None
               = Raise (ValueError (ambiguous_tensor_msg "foo")))
    by reflexivity.
  rewrite Hv in He. injection He as <-. discriminate Hc.
Qed.

(** ** The trainables collection *)

Lemma trainables_set_collection (l : list TfVariable) (g : Graph) :
  trainables (set_collection __TRAINABLES l g) = l.
Proof.
  unfold trainables, get_collection, set_collection. simpl.
  by rewrite lookup_insert_eq.
Qed.

Lemma get_collection_set_collection_ne
    (name name' : string) (l : list TfVariable) (g : Graph) :
  name ≠ name' →
  get_collection (set_collection name l g) name' = get_collection g name'.
Proof.
  intros Hne. unfold get_collection, set_collection. simpl.
  by rewrite lookup_insert_ne.
Qed.

Lemma list_remove_absent (x : TfVariable) (l : list TfVariable) :
  x ∉ l → list_remove x l = None.
Proof.
  induction l as [|y l IH]; [done|].
  intros Hx. apply not_elem_of_cons in Hx as [Hne Hx]. simpl.
  destruct (decide (y = x)) as [->|_]; [done|]. by rewrite IH.
Qed.

(** [list.remove] drops the first occurrence and nothing else. *)
Lemma list_remove_present (x : TfVariable) (l : list TfVariable) :
  x ∈ l →
  ∃ l1 l2,
    l = l1 ++ x :: l2 ∧ (x ∉ l1) ∧ list_remove x l = Some (l1 ++ l2).
Proof.
  induction l as [|y l IH]; [by intros ?%elem_of_nil|].
  intros Hx. simpl. destruct (decide (y = x)) as [->|Hne].
  - exists [], l. split; [done|]. split; [apply not_elem_of_nil|done].
  - apply elem_of_cons in Hx as [->|Hx]; [done|].
    destruct (IH Hx) as (l1 & l2 & -> & Hl1 & ->).
    exists (y :: l1), l2. split; [done|]. split; [|done].
    apply not_elem_of_cons. split; [congruence|done].
Qed.

Lemma occurrences_app (x : TfVariable) (l1 l2 : list TfVariable) :
  occurrences x (l1 ++ l2) = occurrences x l1 + occurrences x l2.
Proof. apply count_occ_app. Qed.

Lemma occurrences_absent (x : TfVariable) (l : list TfVariable) :
  x ∉ l ↔ occurrences x l = 0.
Proof. unfold occurrences. rewrite <- count_occ_not_In, list_elem_of_In. done. Qed.

Lemma occurrences_here (x : TfVariable) (l : list TfVariable) :
  occurrences x (x :: l) = S (occurrences x l).
Proof. by apply count_occ_cons_eq. Qed.

Lemma occurrences_NoDup (x : TfVariable) (l : list TfVariable) :
  NoDup l → occurrences x l ≤ 1.
Proof.
  intros Hnd. apply NoDup_ListNoDup in Hnd.
  by apply (proj1 (NoDup_count_occ TfVariable_eq_dec l)).
Qed.

(** What [add_to_trainables] does to the resolved graph. *)
Lemma add_to_trainables_unfold
    (default_graph : Graph) (v : TfVariable) (graph : option Graph) :
  let g := _get_graph default_graph graph in
  add_to_trainables default_graph v graph
  = (Ok tt,
     if decide (v ∈ trainables g) then g
     else set_collection __TRAINABLES (trainables g ++ [v]) g).
Proof.
  intros g. unfold add_to_trainables. fold g. fold (trainables g).
  destruct (decide (v ∈ trainables g)) as [Hin|Hout].
  - rewrite bool_decide_eq_false_2; [done|]. by intros ?.
  - by rewrite bool_decide_eq_true_2.
Qed.

(** What [remove_from_trainables] does to the resolved graph: the look-up
    of the live list creates an empty collection when there is none. *)
Lemma remove_from_trainables_unfold
    (default_graph : Graph) (v : TfVariable) (graph : option Graph) :
  let g := _get_graph default_graph graph in
  remove_from_trainables default_graph v graph
  = match list_remove v (trainables g) with
    | Some l' => (Ok tt, set_collection __TRAINABLES l' g)
    | None =>
        (Raise (GPflowError (not_found_msg v g)),
         (get_collection_ref __TRAINABLES g).2)
    end.
Proof.
  intros g. unfold remove_from_trainables. fold g.
  unfold get_collection_ref, trainables, get_collection.
  destruct (g_collections g !! __TRAINABLES) as [l|] eqn:Hl; simpl.
  - unfold get_collection. rewrite Hl. simpl.
    destruct (decide (v ∈ l)) as [Hin|Hout].
    + rewrite bool_decide_eq_false_2 by (by intros ?).
      unfold ref_remove, deref, get_collection. rewrite Hl. simpl.
      by destruct (list_remove_present v l Hin) as (l1 & l2 & _ & _ & ->).
    + rewrite bool_decide_eq_true_2 by done.
      by rewrite (list_remove_absent v l Hout).
  - unfold get_collection. simpl. rewrite lookup_insert_eq. simpl.
    reflexivity.
Qed.

Lemma trainables_get_collection_ref (g : Graph) :
  trainables (get_collection_ref __TRAINABLES g).2 = trainables g.
Proof.
  unfold get_collection_ref.
  destruct (g_collections g !! __TRAINABLES) as [l|] eqn:Hl; simpl; [done|].
  rewrite trainables_set_collection.
  unfold trainables, get_collection. by rewrite Hl.
Qed.

(** A string holds each of the pieces it is put together from. *)
Lemma prefix_append (s t : string) : String.prefix s (s +:+ t) = true.
Proof.
  induction s as [|c s IH]; simpl; [by destruct t|].
  destruct (Ascii.ascii_dec c c); [done|congruence].
Qed.

Lemma str_contains_prefix (sub s : string) :
  String.prefix sub s = true → str_contains sub s = true.
Proof. destruct s; simpl; by intros ->. Qed.

Lemma str_contains_append (a sub b : string) :
  str_contains sub (a +:+ sub +:+ b) = true.
Proof.
  induction a as [|c a IH].
  - apply str_contains_prefix. exact (prefix_append sub b).
  - change (String.prefix sub (String c (a +:+ sub +:+ b))
            || str_contains sub (a +:+ sub +:+ b) = true).
    rewrite IH. apply orb_true_r.
Qed.

Lemma string_append_assoc (a b c : string) :
  String.append (String.append a b) c = String.append a (String.append b c).
Proof.
  induction a as [|x a IH]; [reflexivity | exact (f_equal (String x) IH)].
Qed.

Lemma string_append_empty_r (a : string) : a +:+ EmptyString = a.
Proof.
  induction a as [|x a IH]; [reflexivity | exact (f_equal (String x) IH)].
Qed.

Lemma str_contains_suffix (a sub : string) :
  str_contains sub (a +:+ sub) = true.
Proof.
  rewrite <- (string_append_empty_r sub) at 2. apply str_contains_append.
Qed.

Lemma not_found_msg_carries (v : TfVariable) (g : Graph) :
  str_contains (v_repr v) (not_found_msg v g) = true
  ∧ str_contains (g_repr g) (not_found_msg v g) = true.
Proof.
  unfold not_found_msg. split.
  - apply str_contains_append.
  - rewrite <- !string_append_assoc. apply str_contains_suffix.
Qed.

(** C5, as amended: when the variable is no member of the graph's
    trainables, [remove_from_trainables] raises a [GPflowError] whose
    message holds the text of the variable and of the graph, and the
    trainables stay as they were; when it is a member the call succeeds and
    drops its first occurrence from the graph's own list, and a membership
    query afterwards is false exactly when the variable occurred once, in
    particular whenever the collection held no duplicates. *)
Theorem remove_from_trainables_first_occurrence
    (default_graph : Graph) (variable : TfVariable) (graph : option Graph) :
  let g := _get_graph default_graph graph in
  let result := (remove_from_trainables default_graph variable graph).1 in
  let g' := (remove_from_trainables default_graph variable graph).2 in
  (variable ∉ trainables g →
   result = Raise (GPflowError (not_found_msg variable g))
   ∧ exn_class_name (GPflowError (not_found_msg variable g)) = "GPflowError"
   ∧ str_contains (v_repr variable) (not_found_msg variable g) = true
   ∧ str_contains (g_repr g) (not_found_msg variable g) = true
   ∧ trainables g' = trainables g)
  ∧ (variable ∈ trainables g →
     result = Ok tt
     ∧ (∃ l1 l2,
          trainables g = l1 ++ variable :: l2 ∧ (variable ∉ l1)
          ∧ trainables g' = l1 ++ l2)
     ∧ occurrences variable (trainables g')
       = occurrences variable (trainables g) - 1
     ∧ (variable ∉ trainables g' ↔ occurrences variable (trainables g) = 1)
     ∧ (NoDup (trainables g) → variable ∉ trainables g')).
Proof.
  intros g result g'. subst result g'.
  rewrite (remove_from_trainables_unfold default_graph variable graph).
  fold g. split.
  - intros Hout. rewrite (list_remove_absent _ _ Hout). simpl.
    pose proof (not_found_msg_carries variable g) as [Hv Hg].
    repeat split; try done. apply trainables_get_collection_ref.
  - intros Hin.
    destruct (list_remove_present _ _ Hin) as (l1 & l2 & Hl & Hl1 & ->).
    simpl. rewrite trainables_set_collection.
    assert (Hocc : occurrences variable (trainables g)
                   = S (occurrences variable (l1 ++ l2))).
    { rewrite Hl, !occurrences_app, occurrences_here. lia. }
    split; [done|]. split; [by exists l1, l2|].
    split; [lia|]. split.
    + rewrite occurrences_absent. lia.
    + intros Hnd. apply occurrences_absent.
      pose proof (occurrences_NoDup variable _ Hnd). lia.
Qed.

(** [remove_from_trainables_first_occurrence] on sample graphs: [var_w] is
    missing from a graph without trainables, and is the second of the two
    trainables of [bw_graph]. *)
Lemma remove_from_trainables_first_occurrence_witness :
  (remove_from_trainables one_output_graph var_w None).1
  = Raise (GPflowError (not_found_msg var_w one_output_graph))
  ∧ (remove_from_trainables one_output_graph var_w (Some bw_graph)).1 = Ok tt
  ∧ var_w ∉ trainables
              (remove_from_trainables one_output_graph var_w (Some bw_graph)).2.
Proof.
  split; [|split].
  - apply (remove_from_trainables_first_occurrence one_output_graph var_w None).
    apply not_elem_of_nil.
  - apply (remove_from_trainables_first_occurrence one_output_graph var_w
             (Some bw_graph)).
    apply list_elem_of_further, list_elem_of_here.
  - apply (remove_from_trainables_first_occurrence one_output_graph var_w
             (Some bw_graph)).
    + apply list_elem_of_further, list_elem_of_here.
    + apply NoDup_cons. split; [|apply NoDup_singleton].
      intros Hin%list_elem_of_singleton. discriminate Hin.
Defined.

(** C5, as stated, fails: [var_w] is a member of the trainables of
    [twice_graph], the removal succeeds, and [var_w] is a member still. *)
Lemma remove_from_trainables_keeps_a_duplicate :
  var_w ∈ trainables twice_graph
  ∧ (remove_from_trainables twice_graph var_w None).1 = Ok tt
  ∧ ¬ (var_w ∉ trainables (remove_from_trainables twice_graph var_w None).2).
Proof.
  split; [apply list_elem_of_here|]. split; [reflexivity|].
  intros Hout. apply Hout. apply list_elem_of_here.
Qed.

(** C6, as amended: [add_to_trainables] never raises; it leaves the
    collection as it is when the variable is a member and appends the
    variable otherwise; a second call changes nothing; and after the calls
    the collection holds the variable exactly once provided it held it at
    most once before. *)
Theorem add_to_trainables_idempotent
    (default_graph : Graph) (variable : TfVariable) (graph : option Graph) :
  let g := _get_graph default_graph graph in
  let once := add_to_trainables default_graph variable graph in
  let twice := add_to_trainables default_graph variable (Some once.2) in
  once.1 = Ok tt
  ∧ twice.1 = Ok tt
  ∧ (variable ∈ trainables g → once.2 = g)
  ∧ (variable ∉ trainables g → trainables once.2 = trainables g ++ [variable])
  ∧ variable ∈ trainables once.2
  ∧ twice.2 = once.2
  ∧ occurrences variable (trainables twice.2)
    = Nat.max 1 (occurrences variable (trainables g))
  ∧ (occurrences variable (trainables g) ≤ 1 →
     occurrences variable (trainables twice.2) = 1).
Proof.
  intros g once twice.
  assert (Honce : once = (Ok tt,
             if decide (variable ∈ trainables g) then g
             else set_collection __TRAINABLES (trainables g ++ [variable]) g))
    by apply add_to_trainables_unfold.
  assert (Hmem : variable ∈ trainables once.2).
  { rewrite Honce. simpl. destruct (decide (variable ∈ trainables g)); [done|].
    rewrite trainables_set_collection. apply elem_of_app. right.
    apply list_elem_of_here. }
  assert (Htwice : twice = (Ok tt, once.2)).
  { subst twice. rewrite add_to_trainables_unfold. simpl.
    by rewrite decide_True. }
  assert (Hocc : occurrences variable (trainables once.2)
                 = Nat.max 1 (occurrences variable (trainables g))).
  { rewrite Honce. simpl. destruct (decide (variable ∈ trainables g)) as [Hin|Hout].
    - assert (occurrences variable (trainables g) ≠ 0)
        by (by rewrite <- occurrences_absent; intros ?). lia.
    - rewrite trainables_set_collection, occurrences_app, occurrences_here.
      apply occurrences_absent in Hout. rewrite Hout. reflexivity. }
  rewrite Htwice. simpl. rewrite Hocc.
  repeat split; try done.
  - by rewrite Honce.
  - rewrite Honce. simpl. intros Hin. by rewrite decide_True.
  - rewrite Honce. simpl. intros Hout. rewrite decide_False by done.
    apply trainables_set_collection.
  - lia.
Qed.

(** [add_to_trainables_idempotent] on a graph without trainables: two calls
    leave exactly one [var_w]. *)
Lemma add_to_trainables_idempotent_witness :
  occurrences var_w
    (trainables
       (add_to_trainables one_output_graph var_w
          (Some (add_to_trainables one_output_graph var_w None).2)).2) = 1.
Proof.
  apply (add_to_trainables_idempotent one_output_graph var_w None).
  vm_compute. lia.
Defined.

(** C6, as stated, fails: the trainables of [twice_graph] hold [var_w]
    twice, and hold it twice after two calls of [add_to_trainables]. *)
Lemma add_to_trainables_keeps_duplicates :
  let once := add_to_trainables twice_graph var_w None in
  let twice := add_to_trainables twice_graph var_w (Some once.2) in
  once.1 = Ok tt ∧ twice.1 = Ok tt
  ∧ occurrences var_w (trainables twice.2) = 2
  ∧ occurrences var_w (trainables twice.2) ≠ 1.
Proof. repeat split; try reflexivity. vm_compute. lia. Qed.

(** C9: a trainables collection without duplicates stays without duplicates
    under every call of [add_to_trainables] and every call of
    [remove_from_trainables] that succeeds: the first appends the variable
    only when it is absent, the second deletes one occurrence, the first,
    from the list that the graph owns, and no other collection changes. *)
Theorem trainables_stay_duplicate_free
    (default_graph : Graph) (variable : TfVariable) (graph : option Graph) :
  let g := _get_graph default_graph graph in
  let added := (add_to_trainables default_graph variable graph).2 in
  let removal := remove_from_trainables default_graph variable graph in
  NoDup (trainables g) →
  NoDup (trainables added)
  ∧ (variable ∈ trainables g → added = g)
  ∧ (variable ∉ trainables g → trainables added = trainables g ++ [variable])
  ∧ (removal.1 = Ok tt →
     NoDup (trainables removal.2)
     ∧ (∃ l1 l2,
          trainables g = l1 ++ variable :: l2 ∧ (variable ∉ l1)
          ∧ trainables removal.2 = l1 ++ l2)
     ∧ length (trainables removal.2) + 1 = length (trainables g)
     ∧ (∀ name, name ≠ __TRAINABLES →
                get_collection removal.2 name = get_collection g name)).
Proof.
  intros g added removal Hnd. subst added removal.
  rewrite (add_to_trainables_unfold default_graph variable graph).
  rewrite (remove_from_trainables_unfold default_graph variable graph).
  fold g. cbn [fst snd]. split; [|split; [|split]].
  - destruct (decide (variable ∈ trainables g)) as [Hin|Hout]; [done|].
    rewrite trainables_set_collection. apply NoDup_app.
    split; [done|]. split; [|apply NoDup_singleton].
    intros x Hx Hx'%list_elem_of_singleton. by subst x.
  - intros Hin. by rewrite decide_True.
  - intros Hout. rewrite decide_False by done. apply trainables_set_collection.
  - destruct (decide (variable ∈ trainables g)) as [Hin|Hout].
    + destruct (list_remove_present _ _ Hin) as (l1 & l2 & Hl & Hl1 & ->).
      cbn [fst snd]. intros _. rewrite trainables_set_collection.
      split; [|split; [by exists l1, l2|split]].
      * rewrite Hl in Hnd. apply NoDup_app in Hnd as (Hn1 & Hdisj & Hn2).
        apply NoDup_cons in Hn2 as [_ Hn2]. apply NoDup_app.
        split; [done|]. split; [|done].
        intros x Hx Hx'. apply (Hdisj x Hx). by apply list_elem_of_further.
      * rewrite Hl, !length_app. simpl. lia.
      * intros name Hne. by apply get_collection_set_collection_ne.
    + rewrite (list_remove_absent _ _ Hout). cbn [fst snd]. discriminate.
Qed.

(** [trainables_stay_duplicate_free] on [bw_graph], whose trainables are
    [var_b; var_w]: adding [var_w] changes nothing, removing it leaves a
    collection without duplicates. *)
Lemma trainables_stay_duplicate_free_witness :
  NoDup (trainables bw_graph)
  ∧ NoDup (trainables (add_to_trainables one_output_graph var_w
                         (Some bw_graph)).2)
  ∧ NoDup (trainables (remove_from_trainables one_output_graph var_w
                         (Some bw_graph)).2).
Proof.
  assert (Hnd : NoDup (trainables bw_graph)).
  { apply NoDup_cons. split; [|apply NoDup_singleton].
    intros Hin%list_elem_of_singleton. discriminate Hin. }
  split; [exact Hnd|]. split.
  - apply (trainables_stay_duplicate_free one_output_graph var_w
             (Some bw_graph) Hnd).
  - apply (trainables_stay_duplicate_free one_output_graph var_w
             (Some bw_graph) Hnd).
    reflexivity.
Defined.

(** ** Dtype normalisation *)

(** A value that carries a dtype (an array or a NumPy scalar) is normalised
    by its scalar type: the configured float type for 32- and 64-bit
    floats, [np.int32] for 16-, 32- and 64-bit integers, a [ValueError]
    that quotes the value for anything else. *)
Lemma normalize_dtype_of_array
    (FLOAT_TYPE : PyValue) (py_format : PyValue → string)
    (t : np_scalar_type) (shape : list nat) (items : list Z) :
  normalize_dtype FLOAT_TYPE py_format (PyNdarray t shape items)
  = if bool_decide (t ∈ [np_float32; np_float64]) then Ok FLOAT_TYPE
    else if bool_decide (t ∈ [np_int16; np_int32; np_int64])
         then Ok (PyNpType np_int32)
         else Raise (ValueError
                       (unknown_dtype_msg py_format (PyNdarray t shape items))).
Proof.
  unfold normalize_dtype. simpl.
  destruct (bool_decide (t ∈ [np_float32; np_float64])); [done|].
  by destruct (bool_decide (t ∈ [np_int16; np_int32; np_int64])).
Qed.

(** A dtype object given as it is, [np.dtype('float64')] or the scalar type
    [np.float64], has no [dtype] attribute with a [type]: the call raises
    [AttributeError]. *)
Lemma normalize_dtype_of_raw_dtype
    (FLOAT_TYPE : PyValue) (py_format : PyValue → string) (t : np_scalar_type) :
  (∃ msg, normalize_dtype FLOAT_TYPE py_format (PyNpDtype t)
          = Raise (AttributeError msg))
  ∧ (∃ msg, normalize_dtype FLOAT_TYPE py_format (PyNpType t)
            = Raise (AttributeError msg)).
Proof. split; eexists; reflexivity. Qed.

(** C3, where the code departs from it: for every [tf.DType], whatever the
    configured float type, [normalize_dtype] raises [AttributeError].
    [as_numpy_dtype] unwraps the input to a NumPy scalar type, the class
    [np.float64] for [tf.float64]; [value.dtype] read on a class is the
    unbound descriptor of [numpy.generic], which has no attribute [type].
    Neither the float and integer tests nor the re-wrapping by
    [tf.as_dtype] is reached. *)
Theorem normalize_dtype_of_tf_dtype_raises
    (FLOAT_TYPE : PyValue) (py_format : PyValue → string) (d : tf_dtype) :
  ∃ msg,
    normalize_dtype FLOAT_TYPE py_format (PyTfDType d)
    = Raise (AttributeError msg).
Proof. destruct d; eexists; reflexivity. Qed.

(** ** Packing vectors into lower triangles *)

(** *** The enumeration of the lower triangle *)

Lemma imap_seq_index {B : Type} (f : nat → nat → B) (s n : nat) :
  imap f (seq s n) = (λ k, f k (s + k)) <$> seq 0 n.
Proof.
  revert f s. induction n as [|n IH]; intros f s; [done|].
  simpl. rewrite Nat.add_0_r. f_equal.
  rewrite (IH (f ∘ S) (S s)), <- fmap_S_seq, <- list_fmap_compose.
  apply list_fmap_ext. intros _ k _. simpl. f_equal. lia.
Qed.

Lemma join_singletons_below (i : nat) (l : list nat) :
  Forall (λ j, j ≤ i) l →
  mjoin ((λ j, if bool_decide (j ≤ i) then [(i, j)] else []) <$> l)
  = (λ j, (i, j)) <$> l.
Proof.
  induction 1 as [|j l Hj _ IH]; [done|].
  csimpl. rewrite bool_decide_eq_true_2 by done. csimpl. by rewrite IH.
Qed.

Lemma join_singletons_above (i : nat) (l : list nat) :
  Forall (λ j, i < j) l →
  mjoin ((λ j, if bool_decide (j ≤ i) then [(i, j)] else []) <$> l)
  = ([] : list (nat * nat)).
Proof.
  induction 1 as [|j l Hj _ IH]; [done|].
  csimpl. rewrite bool_decide_eq_false_2 by lia. csimpl. by rewrite IH.
Qed.

(** Row [i] of [np.tri(N)] has its true entries in the columns [0..i]. *)
Lemma nonzero_of_tri_row (N i : nat) :
  i < N →
  mjoin (imap (λ j (b : bool), if b then [(i, j)] else [])
              ((λ j, bool_decide (j ≤ i)) <$> seq 0 N))
  = (λ j, (i, j)) <$> seq 0 (S i).
Proof.
  intros Hi. rewrite imap_fmap, imap_seq_index. simpl.
  replace N with (S i + (N - S i)) by lia.
  rewrite seq_app, fmap_app, join_app.
  rewrite join_singletons_below, join_singletons_above.
  - by rewrite app_nil_r.
  - apply Forall_forall. intros j Hj%elem_of_seq. lia.
  - apply Forall_forall. intros j Hj%elem_of_seq. lia.
Qed.

Lemma list_bind_ext_in {X Y : Type} (f g : X → list Y) (l : list X) :
  (∀ x, x ∈ l → f x = g x) → l ≫= f = l ≫= g.
Proof.
  induction l as [|x l IH]; intros Hfg; [done|]. csimpl.
  rewrite (Hfg x) by apply list_elem_of_here.
  rewrite IH; [done|]. intros y Hy. apply Hfg. by apply list_elem_of_further.
Qed.

(** [list(zip( *np.tril_indices(N)))] is the row-major enumeration of the
    lower triangle. *)
Lemma tril_indices_row_major (N : nat) :
  zip (np_tril_indices N).1 (np_tril_indices N).2 = lower_triangle_row_major N.
Proof.
  unfold np_tril_indices, np_nonzero. cbn [fst snd]. rewrite zip_fst_snd.
  unfold np_tri, lower_triangle_row_major.
  rewrite imap_fmap, imap_seq_index, list_join_bind, list_fmap_bind.
  apply list_bind_ext_in. intros i Hi%elem_of_seq. simpl.
  apply nonzero_of_tri_row. lia.
Qed.

Lemma elem_of_lower_triangle (N i j : nat) :
  (i, j) ∈ lower_triangle_row_major N ↔ j ≤ i < N.
Proof.
  unfold lower_triangle_row_major. rewrite list_elem_of_bind. split.
  - intros (i' & Hin & Hi'). apply list_elem_of_fmap in Hin as (j' & Heq & Hj').
    injection Heq as -> ->. apply elem_of_seq in Hj', Hi'. lia.
  - intros Hij. exists i. split.
    + apply list_elem_of_fmap. exists j. split; [done|]. apply elem_of_seq. lia.
    + apply elem_of_seq. lia.
Qed.

Lemma NoDup_lower_triangle (N : nat) : NoDup (lower_triangle_row_major N).
Proof.
  apply NoDup_bind.
  - intros i1 i2 [i j] _ _ H1 H2.
    apply list_elem_of_fmap in H1 as (j1 & Heq1 & _).
    apply list_elem_of_fmap in H2 as (j2 & Heq2 & _).
    congruence.
  - intros i _. apply NoDup_fmap_2; [|apply NoDup_seq].
    intros j1 j2 Heq. congruence.
  - apply NoDup_seq.
Qed.

Lemma list_bind_one {X Y : Type} (f : X → list Y) (x : X) : [x] ≫= f = f x.
Proof. csimpl. apply app_nil_r. Qed.

Lemma lower_triangle_S (N : nat) :
  lower_triangle_row_major (S N)
  = lower_triangle_row_major N ++ ((λ j, (N, j)) <$> seq 0 (S N)).
Proof.
  unfold lower_triangle_row_major.
  rewrite (seq_S N 0) at 1. by rewrite bind_app, list_bind_one.
Qed.

Lemma triangular_S (n : nat) : S n * (S n + 1) / 2 = n * (n + 1) / 2 + S n.
Proof.
  replace (S n * (S n + 1)) with (n * (n + 1) + S n * 2) by lia.
  by rewrite Nat.div_add by lia.
Qed.

Lemma triangular_mono (m n : nat) : m ≤ n → m * (m + 1) / 2 ≤ n * (n + 1) / 2.
Proof. intros Hmn. apply Nat.Div0.div_le_mono. nia. Qed.

(** The enumeration has [N (N + 1) / 2] coordinates. *)
Lemma length_lower_triangle (N : nat) :
  length (lower_triangle_row_major N) = N * (N + 1) / 2.
Proof.
  induction N as [|N IH]; [done|].
  rewrite lower_triangle_S, length_app, length_fmap, length_seq, IH, triangular_S.
  done.
Qed.

(** Coordinate [(i, j)] stands at position [i (i + 1) / 2 + j]. *)
Lemma lookup_lower_triangle (N i j : nat) :
  j ≤ i < N →
  lower_triangle_row_major N !! (i * (i + 1) / 2 + j) = Some (i, j).
Proof.
  induction N as [|N IH]; [lia|]. intros Hij. rewrite lower_triangle_S.
  destruct (decide (i = N)) as [->|Hne].
  - rewrite lookup_app_r; rewrite length_lower_triangle; [|lia].
    replace (N * (N + 1) / 2 + j - N * (N + 1) / 2) with j by lia.
    rewrite list_lookup_fmap, lookup_seq_lt by lia. done.
  - rewrite lookup_app_l; [apply IH; lia|].
    rewrite length_lower_triangle.
    pose proof (triangular_mono (S i) N ltac:(lia)) as Hmono.
    rewrite triangular_S in Hmono. lia.
Qed.

(** *** Scattering into a matrix of zeros *)

Section VecToTriProofs.
Context {A : Type} (add : A → A → A).

Lemma entry_zeros (zero : A) (rows cols i j : nat) :
  i < rows → j < cols → entry (zeros zero rows cols) i j = Some zero.
Proof.
  intros Hi Hj. unfold entry, zeros.
  rewrite lookup_replicate_2 by done. simpl. by apply lookup_replicate_2.
Qed.

Lemma has_shape_zeros (zero : A) (rows cols : nat) :
  has_shape rows cols (zeros zero rows cols).
Proof.
  split; [apply length_replicate|].
  apply Forall_replicate, length_replicate.
Qed.

Lemma has_shape_add_at (rows cols i j : nat) (u : A) (out : list (list A)) :
  has_shape rows cols out → has_shape rows cols (add_at add i j u out).
Proof.
  intros [Hlen Hrows]. split; unfold add_at.
  - by rewrite length_alter.
  - apply Forall_alter; [done|]. intros row _ Hrow. by rewrite length_alter.
Qed.

Lemma entry_add_at (i j : nat) (u : A) (out : list (list A)) (i' j' : nat) :
  entry (add_at add i j u out) i' j'
  = if decide (i = i' ∧ j = j') then (λ x, add x u) <$> entry out i' j'
    else entry out i' j'.
Proof.
  unfold entry, add_at. rewrite list_lookup_alter.
  destruct (decide (i = i')) as [->|Hi].
  - destruct (out !! i') as [row|]; simpl.
    + rewrite list_lookup_alter. destruct (decide (j = j')) as [->|Hj].
      * by rewrite decide_True.
      * rewrite decide_False by tauto. done.
    + by destruct (decide (i' = i' ∧ j = j')).
  - rewrite decide_False by tauto. done.
Qed.

Lemma scatter_updates_in_bounds (rows cols : nat) (cs : list (nat * nat))
    (us : list A) (out : list (list A)) :
  Forall (λ p, p.1 < rows ∧ p.2 < cols) cs →
  scatter_updates add rows cols ((λ p : nat * nat, [p.1; p.2]) <$> cs) us out
  = Ok (scatter_fold add out cs us).
Proof.
  intros Hcs. revert us out.
  induction Hcs as [|p cs Hp _ IH]; intros us out; [by destruct us|].
  destruct us as [|u us]; [done|]. csimpl.
  rewrite bool_decide_eq_true_2 by done. apply IH.
Qed.

Lemma has_shape_scatter_fold (rows cols : nat) (cs : list (nat * nat))
    (us : list A) (out : list (list A)) :
  has_shape rows cols out → has_shape rows cols (scatter_fold add out cs us).
Proof.
  revert us out. induction cs as [|p cs IH]; intros us out Hout; [done|].
  destruct us as [|u us]; [done|]. apply IH. by apply has_shape_add_at.
Qed.

Lemma entry_scatter_fold_other (cs : list (nat * nat)) (us : list A)
    (out : list (list A)) (i j : nat) :
  (i, j) ∉ cs → entry (scatter_fold add out cs us) i j = entry out i j.
Proof.
  revert us out. induction cs as [|p cs IH]; intros us out Hij; [done|].
  destruct us as [|u us]; [done|].
  apply not_elem_of_cons in Hij as [Hne Hij].
  unfold scatter_fold. csimpl. fold (scatter_fold add (add_at add p.1 p.2 u out) cs us).
  rewrite IH by done. rewrite entry_add_at.
  rewrite decide_False; [done|]. intros [<- <-]. by destruct p.
Qed.

Lemma entry_scatter_fold_at (cs : list (nat * nat)) (us : list A)
    (out : list (list A)) (k i j : nat) (u : A) :
  NoDup cs → cs !! k = Some (i, j) → us !! k = Some u →
  entry (scatter_fold add out cs us) i j = (λ x, add x u) <$> entry out i j.
Proof.
  revert us out k.
  induction cs as [|p cs IH]; intros us out k Hnd Hk Hu; [done|].
  destruct us as [|u0 us]; [done|].
  apply NoDup_cons in Hnd as [Hp Hnd].
  unfold scatter_fold. csimpl. fold (scatter_fold add (add_at add p.1 p.2 u0 out) cs us).
  destruct k as [|k]; simpl in Hk, Hu.
  - injection Hk as ->. injection Hu as ->. simpl.
    rewrite entry_scatter_fold_other by done.
    rewrite entry_add_at. by rewrite decide_True.
  - rewrite (IH us _ k Hnd Hk Hu). rewrite entry_add_at.
    rewrite decide_False; [done|]. intros [Hi Hj]. apply Hp.
    apply list_elem_of_lookup_2 with k. rewrite Hk. destruct p. simpl in *. congruence.
Qed.
End VecToTriProofs.

Lemma run_each_Forall2 {X Y : Type} (fn : X → Result Y) (P : X → Y → Prop)
    (elems : list X) :
  Forall (λ x, ∃ y, fn x = Ok y ∧ P x y) elems →
  ∃ ys, run_each fn elems = Ok ys ∧ Forall2 P elems ys.
Proof.
  induction 1 as [|x elems (y & Hy & HP) _ (ys & Hys & HPs)].
  - exists []. split; [done|constructor].
  - exists (y :: ys). simpl. rewrite Hy, Hys. split; [done|by constructor].
Qed.

(** *** The shapes that [tf.scatter_nd] is given *)

Lemma scatter_nd_shapes_lower_triangle (N M : nat) :
  0 < N → M = N * (N + 1) / 2 →
  scatter_nd_shapes
    ((λ p : nat * nat, [p.1; p.2]) <$> lower_triangle_row_major N) M
  = Ok tt.
Proof.
  intros HN ->. unfold scatter_nd_shapes.
  assert (Hpos : 0 < length (lower_triangle_row_major N)).
  { rewrite length_lower_triangle.
    pose proof (triangular_mono 1 N ltac:(lia)) as H1.
    change (1 * (1 + 1) / 2) with 1 in H1. lia. }
  destruct ((λ p : nat * nat, [p.1; p.2]) <$> lower_triangle_row_major N)
    as [|ix ixs] eqn:E.
  { apply (f_equal length) in E. rewrite length_fmap in E. simpl in E. lia. }
  rewrite <- E. rewrite bool_decide_eq_true_2; [done|].
  split; [|by rewrite length_fmap, length_lower_triangle].
  apply Forall_fmap, Forall_forall. by intros p _.
Qed.

Lemma scatter_nd_shapes_refused (N M : nat) :
  M ≠ N * (N + 1) / 2 ∨ N = 0 →
  ∃ e,
    scatter_nd_shapes
      ((λ p : nat * nat, [p.1; p.2]) <$> lower_triangle_row_major N) M
    = Raise e.
Proof.
  intros HM. unfold scatter_nd_shapes.
  destruct ((λ p : nat * nat, [p.1; p.2]) <$> lower_triangle_row_major N)
    as [|ix ixs] eqn:E; [by eexists|].
  rewrite <- E. rewrite bool_decide_eq_false_2; [by eexists|].
  intros [_ Hlen]. rewrite length_fmap, length_lower_triangle in Hlen.
  destruct HM as [HM| ->]; [congruence|]. discriminate E.
Qed.

(** The body of [vec_to_tri] cannot be built for vectors of another length
    than [N (N + 1) / 2], nor for [N = 0]: the call raises, whatever the
    number of vectors. *)
Lemma vec_to_tri_shapes_refused {A : Type} (zero : A) (add : A → A → A)
    (vectors : Batch A) (N : nat) :
  vec_len vectors ≠ N * (N + 1) / 2 ∨ N = 0 →
  ∃ e, vec_to_tri zero add vectors N = Raise e.
Proof.
  intros HM. unfold vec_to_tri, map_fn.
  rewrite (surjective_pairing (np_tril_indices N)), tril_indices_row_major.
  cbn [on_shape on_item].
  destruct (scatter_nd_shapes_refused N (vec_len vectors) HM) as [e ->].
  by exists e.
Qed.

Section VecToTriMain.
Context {A : Type} (zero : A) (add : A → A → A).
(** The zero that fills the output is neutral on the left of the addition
    that accumulates the updates (integers; floats up to the sign of a
    zero). *)
Hypothesis add_zero_l : ∀ x, add zero x = x.

Lemma scatter_nd_lower_triangle (N : nat) (v : list A) :
  0 < N → length v = N * (N + 1) / 2 →
  ∃ m,
    scatter_nd zero add
      ((λ p : nat * nat, [p.1; p.2]) <$> lower_triangle_row_major N) N N v
    = Ok m
    ∧ has_shape N N m
    ∧ (∀ k i j, lower_triangle_row_major N !! k = Some (i, j) →
                ∃ x, v !! k = Some x ∧ entry m i j = Some x)
    ∧ (∀ i j, i < j < N → entry m i j = Some zero).
Proof.
  intros HN Hv. set (L := lower_triangle_row_major N).
  assert (HL : length L = N * (N + 1) / 2) by apply length_lower_triangle.
  exists (scatter_fold add (zeros zero N N) L v). split; [|split; [|split]].
  - unfold scatter_nd, L.
    rewrite (scatter_nd_shapes_lower_triangle N (length v) HN Hv).
    cbn [bind]. apply scatter_updates_in_bounds. apply Forall_forall.
    intros [i j] Hij%elem_of_lower_triangle. simpl. lia.
  - apply has_shape_scatter_fold, has_shape_zeros.
  - intros k i j Hk.
    assert (Hij : j ≤ i < N).
    { apply elem_of_lower_triangle. by apply list_elem_of_lookup_2 with k. }
    destruct (lookup_lt_is_Some_2 v k) as [x Hx].
    { rewrite Hv, <- HL. by apply lookup_lt_Some with (i, j). }
    exists x. split; [done|].
    rewrite (entry_scatter_fold_at add L v _ k i j x
               (NoDup_lower_triangle N) Hk Hx).
    rewrite entry_zeros by lia. simpl. by rewrite add_zero_l.
  - intros i j Hij. rewrite entry_scatter_fold_other.
    + apply entry_zeros; lia.
    + intros Hin%elem_of_lower_triangle. lia.
Qed.

End VecToTriMain.



(** ** Further properties of the module *)

(** With an index, [get_tensor_by_name] returns the tensor at exactly
    [name:index], and [None] when the graph reports that nothing is
    there. *)
Theorem get_tensor_by_name_with_index
    (default_graph : Graph) (name index : string) (graph : option Graph) :
  let g := _get_graph default_graph graph in
  let result := get_tensor_by_name default_graph name (Some index) graph in
  (∀ t, g_get_tensor_by_name g (name +:+ ":" +:+ index) = Ok t →
        result = Ok (Some t))
  ∧ ((∃ m, g_get_tensor_by_name g (name +:+ ":" +:+ index) = Raise (KeyError m))
     → result = Ok None).
Proof.
  intros g result. subst result. unfold get_tensor_by_name. fold g. split.
  - intros t Ht. by apply _get_tensor_by_name_found.
  - intros [m Hm]. by apply _get_tensor_by_name_missing with m.
Qed.

(** An exception of the graph's look-up of [name:0] other than [KeyError]
    is not turned into the not-found result: [get_tensor_by_name] raises
    it. *)
Theorem get_tensor_by_name_passes_on_other_errors
    (default_graph : Graph) (name : string) (graph : option Graph) (e : exn) :
  g_get_tensor_by_name (_get_graph default_graph graph) (name +:+ ":0")
  = Raise e →
  exn_class_name e ≠ "KeyError" →
  get_tensor_by_name default_graph name None graph = Raise e.
Proof.
  intros He Hne. unfold get_tensor_by_name.
  by rewrite (_get_tensor_by_name_passes_on name "0" _ e He Hne).
Qed.

(** [get_tensor_by_name_passes_on_other_errors] on a name that holds a
    colon. *)
Lemma get_tensor_by_name_passes_on_other_errors_witness :
  get_tensor_by_name strict_graph "a:b" None None
  = Raise (ValueError "not a valid tensor name").
Proof.
  apply (get_tensor_by_name_passes_on_other_errors strict_graph "a:b" None).
  - reflexivity.
  - discriminate.
Defined.

(** After a removal, successful or not, adding the variable again makes it
    a member. *)
Theorem add_after_remove_restores_membership
    (default_graph : Graph) (variable : TfVariable) (graph : option Graph) :
  let removed := (remove_from_trainables default_graph variable graph).2 in
  let added := (add_to_trainables default_graph variable (Some removed)).2 in
  variable ∈ trainables added.
Proof.
  intros removed added. subst added.
  rewrite add_to_trainables_unfold. simpl.
  destruct (decide (variable ∈ trainables removed)) as [Hin|Hout]; [done|].
  rewrite trainables_set_collection. apply elem_of_app. right.
  apply list_elem_of_here.
Qed.

(** [np.tril_indices(N)], zipped as [vec_to_tri] does, lists each
    coordinate of the lower triangle once, row after row: there are
    [N (N + 1) / 2] of them and [(i, j)] stands at position
    [i (i + 1) / 2 + j]. *)
Theorem np_tril_indices_enumeration (N : nat) :
  let coords := zip (np_tril_indices N).1 (np_tril_indices N).2 in
  coords = lower_triangle_row_major N
  ∧ NoDup coords
  ∧ length coords = N * (N + 1) / 2
  ∧ (∀ i j, (i, j) ∈ coords ↔ j ≤ i < N)
  ∧ (∀ i j, j ≤ i < N → coords !! (i * (i + 1) / 2 + j) = Some (i, j)).
Proof.
  intros coords. subst coords. rewrite tril_indices_row_major.
  split; [done|]. split; [apply NoDup_lower_triangle|].
  split; [apply length_lower_triangle|].
  split; [intros; apply elem_of_lower_triangle|].
  intros. by apply lookup_lower_triangle.
Qed.

(** *** Names built in steps, and names that collide *)

(** What follows the first segment of a joined name. *)
Lemma str_join_cons (sep s : string) (rest : list string) :
  str_join sep (s :: rest)
  = s +:+ match rest with
          | [] => EmptyString
          | _ => sep +:+ str_join sep rest
          end.
Proof.
  destruct rest as [|t rest]; [|reflexivity].
  simpl. symmetry. apply string_append_empty_r.
Qed.




Lemma append_String (a : Ascii.ascii) (s r : string) :
  String a s +:+ r = String a (s +:+ r).
Proof. reflexivity. Qed.

Lemma has_slash_String (c : Ascii.ascii) (s : string) :
  has_slash (String c s) = false ↔ c ≠ slash ∧ has_slash s = false.
Proof.
  unfold has_slash.
  change (str_contains "/" (String c s))
    with (String.prefix "/" (String c s) || str_contains "/" s).
  rewrite orb_false_iff.
  change (String.prefix "/" (String c s))
    with (if Ascii.ascii_dec slash c then String.prefix EmptyString s
          else false).
  destruct (Ascii.ascii_dec slash c) as [<-|Hne].
  - split; [by destruct s; intros [? _]|]. by intros [? _].
  - split; [intros [_ ?]; split; [congruence|done]|]. by intros [_ ?].
Qed.

Lemma segment_inj (s t rs rt : string) :
  has_slash s = false → has_slash t = false →
  after_segment rs → after_segment rt →
  s +:+ rs = t +:+ rt → s = t ∧ rs = rt.
Proof.
  revert t. induction s as [|a s IH]; intros t Hs Ht Hrs Hrt Heq.
  - destruct t as [|b t]; [done|].
    apply has_slash_String in Ht as [Hb _].
    change (rs = String b (t +:+ rt)) in Heq.
    destruct Hrs as [->|[r' ->]]; [done|]. congruence.
  - apply has_slash_String in Hs as [Ha Hs].
    destruct t as [|b t].
    + change (String a (s +:+ rs) = rt) in Heq.
      destruct Hrt as [->|[r' ->]]; [done|]. congruence.
    + apply has_slash_String in Ht as [_ Ht].
      rewrite !append_String in Heq. injection Heq as -> Heq.
      destruct (IH t Hs Ht Hrs Hrt Heq) as [-> ->]. done.
Qed.

Lemma after_segment_rest (rest : list string) :
  after_segment match rest with
                | [] => EmptyString
                | _ => "/" +:+ str_join "/" rest
                end.
Proof. destruct rest; [by left|]. right. by eexists. Qed.

Lemma str_join_slash_inj (xs ys : list string) :
  xs ≠ [] → ys ≠ [] →
  Forall (λ s, has_slash s = false) xs →
  Forall (λ s, has_slash s = false) ys →
  str_join "/" xs = str_join "/" ys → xs = ys.
Proof.
  intros Hxs Hys Hfx. revert ys Hys.
  induction Hfx as [|x xr Hx Hfx IH]; [done|]. clear Hxs.
  intros ys Hys Hfy Heq. destruct Hfy as [|y yr Hy Hfy]; [done|]. clear Hys.
  rewrite !str_join_cons in Heq.
  destruct (segment_inj x y _ _ Hx Hy (after_segment_rest xr)
              (after_segment_rest yr) Heq) as [-> Hrest].
  f_equal. destruct xr as [|x' xr], yr as [|y' yr]; try done.
  apply IH; try done. by injection Hrest.
Qed.

(** Names do not collide as long as no segment holds a slash: two
    non-empty sequences of slash-free segments with the same name are the
    same sequence.  Without the conditions names do collide: a segment with
    a slash reads as two segments, and no segment at all gives the name of
    the one empty segment. *)
Theorem tensor_name_injective :
  (∀ xs ys : list string,
     xs ≠ [] → ys ≠ [] →
     Forall (λ s, has_slash s = false) xs →
     Forall (λ s, has_slash s = false) ys →
     tensor_name xs = tensor_name ys → xs = ys)
  ∧ tensor_name ["a/b"] = tensor_name ["a"; "b"]
  ∧ tensor_name [] = tensor_name [EmptyString].
Proof.
  split; [|by split]. intros xs ys. apply str_join_slash_inj.
Qed.

(** *** The three kinds of parameter value *)

(** A value is at most one of a number, an array and a tensor, and
    [is_valid_param_value] holds of exactly the values that are one of
    them.  It never holds of [None], of a string (a [str] or a [np.str_]),
    of a list, or of a dtype object. *)
Theorem parameter_value_kinds (value : PyValue) :
  (is_number value && is_ndarray value = false)
  ∧ (is_number value && is_tensor value = false)
  ∧ (is_ndarray value && is_tensor value = false)
  ∧ is_valid_param_value value
    = xorb (xorb (is_number value) (is_ndarray value)) (is_tensor value)
  ∧ (is_valid_param_value value = true →
     value ≠ PyNone
     ∧ isinstance_str value = false
     ∧ (∀ items, value ≠ PyList items)
     ∧ (∀ t, value ≠ PyNpType t ∧ value ≠ PyNpDtype t)
     ∧ (∀ d, value ≠ PyTfDType d)).
Proof.
  destruct value as [| | | | | | | |t ?| | | | | | |];
    try (repeat split; (done || (intros; discriminate))).
  destruct t; repeat split; (done || (intros; discriminate)).
Qed.

(** *** What normalisation returns *)

Lemma normalize_dtype_of_np_scalar
    (FLOAT_TYPE : PyValue) (py_format : PyValue → string)
    (t : np_scalar_type) (item : Z) :
  normalize_dtype FLOAT_TYPE py_format (PyNpScalar t item)
  = if bool_decide (t ∈ [np_float32; np_float64]) then Ok FLOAT_TYPE
    else if bool_decide (t ∈ [np_int16; np_int32; np_int64])
         then Ok (PyNpType np_int32)
         else Raise (ValueError
                       (unknown_dtype_msg py_format (PyNpScalar t item))).
Proof.
  unfold normalize_dtype. simpl.
  destruct (bool_decide (t ∈ [np_float32; np_float64])); [done|].
  by destruct (bool_decide (t ∈ [np_int16; np_int32; np_int64])).
Qed.

(** The value that a successful normalisation was given carries a NumPy
    dtype: an array or a NumPy scalar of type [t]. *)
Lemma normalize_dtype_Ok_inv
    (FLOAT_TYPE : PyValue) (py_format : PyValue → string) (value r : PyValue) :
  normalize_dtype FLOAT_TYPE py_format value = Ok r →
  ∃ t, ((∃ shape items, value = PyNdarray t shape items)
        ∨ (∃ item, value = PyNpScalar t item))
       ∧ ((t ∈ [np_float32; np_float64] ∧ r = FLOAT_TYPE)
          ∨ (t ∈ [np_int16; np_int32; np_int64] ∧ r = PyNpType np_int32)).
Proof.
  intros Hr.
  destruct value as [| | | | | | | |t item|t shape items| | |d| | |];
    try discriminate Hr.
  - exists t. split; [right; by eexists|].
    rewrite normalize_dtype_of_np_scalar in Hr.
    destruct (bool_decide (t ∈ [np_float32; np_float64])) eqn:Hf.
    + left. apply bool_decide_eq_true_1 in Hf. by injection Hr as <-.
    + destruct (bool_decide (t ∈ [np_int16; np_int32; np_int64])) eqn:Hi;
        [|discriminate Hr].
      right. apply bool_decide_eq_true_1 in Hi. by injection Hr as <-.
  - exists t. split; [left; by do 2 eexists|].
    unfold normalize_dtype in Hr. simpl in Hr.
    destruct (bool_decide (t ∈ [np_float32; np_float64])) eqn:Hf.
    + left. apply bool_decide_eq_true_1 in Hf. by injection Hr as <-.
    + destruct (bool_decide (t ∈ [np_int16; np_int32; np_int64])) eqn:Hi;
        [|discriminate Hr].
      right. apply bool_decide_eq_true_1 in Hi. by injection Hr as <-.
Qed.

(** Whatever [normalize_dtype] returns is the configured float type or
    [np.int32], and it returns only for a value that carries a NumPy dtype
    of one of the five accepted scalar types.  It does not apply to its own
    results: when the configured float type is a type and not an array or a
    NumPy scalar, normalising the result of a normalisation raises. *)
Theorem normalize_dtype_results
    (FLOAT_TYPE : PyValue) (py_format : PyValue → string) (value r : PyValue) :
  normalize_dtype FLOAT_TYPE py_format value = Ok r →
  (r = FLOAT_TYPE ∨ r = PyNpType np_int32)
  ∧ (is_ndarray value || isinstance_np_generic value = true)
  ∧ (∀ d, value ≠ PyTfDType d)
  ∧ (is_ndarray FLOAT_TYPE || isinstance_np_generic FLOAT_TYPE = false →
     ∃ e, normalize_dtype FLOAT_TYPE py_format r = Raise e).
Proof.
  intros Hr.
  destruct (normalize_dtype_Ok_inv _ _ _ _ Hr) as (t & Hv & Hres).
  assert (Hkind : is_ndarray value || isinstance_np_generic value = true).
  { destruct Hv as [(shape & items & ->)|(item & ->)]; reflexivity. }
  split; [destruct Hres as [[_ ->]|[_ ->]]; [by left|by right]|].
  split; [done|]. split.
  - intros d ->. discriminate Hkind.
  - intros Hft.
    destruct (normalize_dtype FLOAT_TYPE py_format r) as [r'|e] eqn:Hr';
      [|by exists e].
    destruct (normalize_dtype_Ok_inv _ _ _ _ Hr') as (t' & Hv' & _).
    destruct Hres as [[_ ->]|[_ ->]].
    + destruct Hv' as [(shape & items & ->)|(item & ->)]; discriminate Hft.
    + destruct Hv' as [(shape & items & Heq)|(item & Heq)]; discriminate Heq.
Qed.

(** [normalize_dtype_results] on an array of 16-bit integers, with
    [tf.float32] configured. *)
Lemma normalize_dtype_results_witness :
  ∃ e,
    normalize_dtype (PyTfDType tf_float32) (λ _, "array([1, 2], dtype=int16)")
      (PyNpType np_int32)
    = Raise e.
Proof.
  apply (normalize_dtype_results (PyTfDType tf_float32)
           (λ _, "array([1, 2], dtype=int16)")
           (PyNdarray np_int16 [2] [1; 2]%Z) (PyNpType np_int32)).
  - reflexivity.
  - reflexivity.
Defined.

(** The module's NumPy float type goes with its TensorFlow float type when
    the settings give [tf.float32] or [tf.float64]: converted by
    [tf.as_dtype] it is [FLOAT_TYPE], which is also what a float array
    normalises to.  Any other setting, NumPy's own [np.float32] among
    them, is not the object [tf.float32] and gives [np.float64]. *)
Theorem NP_FLOAT_TYPE_goes_with_FLOAT_TYPE
    (FLOAT_TYPE : PyValue) (py_format : PyValue → string) :
  (FLOAT_TYPE = PyTfDType tf_float32 ∨ FLOAT_TYPE = PyTfDType tf_float64 →
   tf_as_dtype (NP_FLOAT_TYPE FLOAT_TYPE) = Ok FLOAT_TYPE
   ∧ ∀ shape items,
       normalize_dtype FLOAT_TYPE py_format (PyNdarray np_float64 shape items)
       = tf_as_dtype (NP_FLOAT_TYPE FLOAT_TYPE))
  ∧ (FLOAT_TYPE ≠ PyTfDType tf_float32 →
     NP_FLOAT_TYPE FLOAT_TYPE = PyNpType np_float64)
  ∧ (∀ t, NP_FLOAT_TYPE (PyNpType t) = PyNpType np_float64).
Proof.
  split; [|split].
  - intros [-> | ->]; by split.
  - intros Hne. destruct FLOAT_TYPE as [| | | | | | | | | | | |d| | |]; try done.
    by destruct d.
  - done.
Qed.

(** *** Adding and removing in sequence *)

Lemma list_remove_snoc (x : TfVariable) (l : list TfVariable) :
  x ∉ l → list_remove x (l ++ [x]) = Some l.
Proof.
  induction l as [|y l IH]; intros Hx; simpl.
  - by rewrite decide_True.
  - apply not_elem_of_cons in Hx as [Hne Hx].
    rewrite decide_False by congruence. by rewrite IH.
Qed.

(** Adding a variable that is not a trainable and removing it again gives
    back every collection of the graph, item for item. *)
Theorem add_then_remove_round_trip
    (default_graph : Graph) (variable : TfVariable) (graph : option Graph) :
  let g := _get_graph default_graph graph in
  let added := (add_to_trainables default_graph variable graph).2 in
  let removal := remove_from_trainables default_graph variable (Some added) in
  variable ∉ trainables g →
  removal.1 = Ok tt
  ∧ trainables removal.2 = trainables g
  ∧ (∀ name, get_collection removal.2 name = get_collection g name).
Proof.
  intros g added removal Hout. subst added removal.
  rewrite (add_to_trainables_unfold default_graph variable graph). fold g.
  cbn [snd]. rewrite decide_False by done.
  rewrite remove_from_trainables_unfold. cbn [_get_graph].
  rewrite trainables_set_collection, (list_remove_snoc _ _ Hout). cbn [fst snd].
  split; [done|]. split; [apply trainables_set_collection|].
  intros name. destruct (decide (name = __TRAINABLES)) as [->|Hne].
  - apply trainables_set_collection.
  - rewrite !get_collection_set_collection_ne by done. done.
Qed.

(** [add_then_remove_round_trip] on [var_b], which is no trainable of a
    graph whose only trainable is [var_w]. *)
Lemma add_then_remove_round_trip_witness :
  trainables
    (remove_from_trainables one_output_graph var_b
       (Some (add_to_trainables one_output_graph var_b
                (Some (add_to_trainables one_output_graph var_w None).2)).2)).2
  = [var_w].
Proof.
  apply (add_then_remove_round_trip one_output_graph var_b
           (Some (add_to_trainables one_output_graph var_w None).2)).
  intros Hin%list_elem_of_singleton. discriminate Hin.
Defined.



(** *** The index left out and the index given *)

(** Leaving the index out is asking for index ["0"], as long as nothing is
    at [name:1]: the two calls return or raise the same.  When both
    [name:0] and [name:1] resolve, each is still returned by the call that
    names its index, and only the call without index raises. *)
Theorem get_tensor_by_name_default_index
    (default_graph : Graph) (name : string) (graph : option Graph) :
  let g := _get_graph default_graph graph in
  ((∃ m, g_get_tensor_by_name g (name +:+ ":1") = Raise (KeyError m)) →
   get_tensor_by_name default_graph name None graph
   = get_tensor_by_name default_graph name (Some "0") graph)
  ∧ (∀ t0 t1,
       g_get_tensor_by_name g (name +:+ ":0") = Ok t0 →
       g_get_tensor_by_name g (name +:+ ":1") = Ok t1 →
       get_tensor_by_name default_graph name (Some "0") graph = Ok (Some t0)
       ∧ get_tensor_by_name default_graph name (Some "1") graph = Ok (Some t1)
       ∧ ∀ r, get_tensor_by_name default_graph name None graph ≠ Ok r).
Proof.
  intros g. unfold get_tensor_by_name. fold g. split.
  - intros [m Hm].
    pose proof (_get_tensor_by_name_missing name "1" g m Hm) as H1.
    destruct (_get_tensor_by_name name "0" g) as [[t|]|e]; simpl; try done.
    by rewrite H1.
  - intros t0 t1 H0 H1.
    rewrite (_get_tensor_by_name_found name "0" g t0 H0).
    rewrite (_get_tensor_by_name_found name "1" g t1 H1). simpl.
    split; [done|]. split; [done|]. intros r. discriminate.
Qed.

(** [get_tensor_by_name_default_index] on the graph with the one tensor
    [foo:0] and on the graph with [foo:0] and [foo:1]. *)
Lemma get_tensor_by_name_default_index_witness :
  get_tensor_by_name one_output_graph "foo" None None
  = get_tensor_by_name one_output_graph "foo" (Some "0") None
  ∧ get_tensor_by_name two_outputs_graph "foo" (Some "1") None = Ok (Some foo1).
Proof.
  split.
  - apply (get_tensor_by_name_default_index one_output_graph "foo" None).
    exists "foo:1". reflexivity.
  - apply (get_tensor_by_name_default_index two_outputs_graph "foo" None
             ) with (t0 := foo0); reflexivity.
Defined.

(** *** Vectors of the wrong length, and reading the vector back *)

Lemma Forall2_functional_l {X Y : Type} (P : X → Y → Prop)
    (l1 l2 : list X) (out : list Y) :
  (∀ a b m, P a m → P b m → a = b) →
  Forall2 P l1 out → Forall2 P l2 out → l1 = l2.
Proof.
  intros Hfun H1. revert l2.
  induction H1 as [|a m l1 out Ha _ IH]; intros l2 H2.
  - by apply Forall2_nil_inv_r in H2.
  - apply Forall2_cons_inv_r in H2 as (b & l2' & Hb & H2 & ->).
    f_equal; [by apply (Hfun a b m)|by apply IH].
Qed.

Section VecToTriErrors.
Context {A : Type} (zero : A) (add : A → A → A).

(** [vec_to_tri] does not pad or cut: when the vectors of the batch have a
    length other than [N (N + 1) / 2], or when [N] is 0, the call raises,
    whatever the number of vectors, none included: [tf.map_fn] builds its
    body for the shape of an item before it runs it.  For [N >= 1] and
    vectors of the right length an empty batch gives an empty batch. *)
Theorem vec_to_tri_rejects_wrong_length (vectors : Batch A) (N : nat) :
  (vec_len vectors ≠ N * (N + 1) / 2 ∨ N = 0 →
   ∃ e, vec_to_tri zero add vectors N = Raise e)
  ∧ (0 < N → vec_len vectors = N * (N + 1) / 2 → vecs vectors = [] →
     vec_to_tri zero add vectors N = Ok []).
Proof.
  split; [apply vec_to_tri_shapes_refused|].
  intros HN HM Hempty. unfold vec_to_tri, map_fn.
  rewrite (surjective_pairing (np_tril_indices N)), tril_indices_row_major.
  cbn [on_shape on_item].
  rewrite (scatter_nd_shapes_lower_triangle N _ HN HM), Hempty. done.
Qed.
End VecToTriErrors.

(** [vec_to_tri_rejects_wrong_length] on a vector of four items with
    [N = 2], on an empty batch with [N = 0], and on an empty batch of
    vectors of length 3 with [N = 2]. *)
Lemma vec_to_tri_rejects_wrong_length_witness :
  (∃ e, vec_to_tri 0%Z Z.add (mkBatch 4 [[1; 2; 3; 4]]%Z) 2 = Raise e)
  ∧ (∃ e, vec_to_tri 0%Z Z.add (mkBatch 0 []) 0 = Raise e)
  ∧ vec_to_tri 0%Z Z.add (mkBatch 3 []) 2 = Ok [].
Proof.
  split; [|split].
  - apply (vec_to_tri_rejects_wrong_length 0%Z Z.add
             (mkBatch 4 [[1; 2; 3; 4]]%Z) 2).
    left. vm_compute. discriminate.
  - apply (vec_to_tri_rejects_wrong_length 0%Z Z.add (mkBatch 0 []) 0).
    by right.
  - apply (vec_to_tri_rejects_wrong_length 0%Z Z.add (mkBatch 3 []) 2).
    + lia.
    + reflexivity.
    + reflexivity.
Defined.

Section VecToTriInjective.
Context {A : Type} (zero : A) (add : A → A → A).
Hypothesis add_zero_l : ∀ x, add zero x = x.

(** A vector is read back from its matrix along the lower triangle. *)
Lemma lower_triangle_determines_vector (N : nat) (v1 v2 : list A)
    (m : list (list A)) :
  length v1 = N * (N + 1) / 2 → length v2 = N * (N + 1) / 2 →
  (∀ k i j, lower_triangle_row_major N !! k = Some (i, j) →
            ∃ x, v1 !! k = Some x ∧ entry m i j = Some x) →
  (∀ k i j, lower_triangle_row_major N !! k = Some (i, j) →
            ∃ x, v2 !! k = Some x ∧ entry m i j = Some x) →
  v1 = v2.
Proof.
  intros Hl1 Hl2 H1 H2. apply list_eq. intros k.
  destruct (decide (k < N * (N + 1) / 2)) as [Hk|Hk].
  - destruct (lookup_lt_is_Some_2 (lower_triangle_row_major N) k)
      as [[i j] Hij]; [by rewrite length_lower_triangle|].
    destruct (H1 k i j Hij) as (x & -> & Hx).
    destruct (H2 k i j Hij) as (y & -> & Hy). congruence.
  - rewrite !lookup_ge_None_2 by lia. done.
Qed.

(** No two batches give the same matrices: for [N >= 1], batches of
    vectors of length [N (N + 1) / 2] that [vec_to_tri] maps to the same
    result are the same batch. *)
Theorem vec_to_tri_injective (N : nat) (vs1 vs2 : Batch A) :
  0 < N →
  vec_len vs1 = N * (N + 1) / 2 → well_shaped vs1 →
  vec_len vs2 = N * (N + 1) / 2 → well_shaped vs2 →
  vec_to_tri zero add vs1 N = vec_to_tri zero add vs2 N →
  vs1 = vs2.
Proof.
  intros HN HM1 Hl1 HM2 Hl2. unfold vec_to_tri, map_fn.
  rewrite (surjective_pairing (np_tril_indices N)), tril_indices_row_major.
  cbn [on_shape on_item].
  rewrite !(scatter_nd_shapes_lower_triangle N _ HN) by done. cbn [bind].
  set (fn := λ vector : list A, scatter_nd zero add _ N N vector).
  set (P := λ (v : list A) (m : list (list A)),
         length v = N * (N + 1) / 2
         ∧ ∀ k i j, lower_triangle_row_major N !! k = Some (i, j) →
                    ∃ x, v !! k = Some x ∧ entry m i j = Some x).
  assert (Hfn : ∀ vs, Forall (λ v, length v = N * (N + 1) / 2) vs →
                      ∃ out, run_each fn vs = Ok out ∧ Forall2 P vs out).
  { intros vs Hvs. apply run_each_Forall2.
    eapply Forall_impl; [exact Hvs|]. intros v Hv.
    destruct (scatter_nd_lower_triangle zero add add_zero_l N v HN Hv)
      as (m & Hm & _ & Hk & _).
    exists m. by repeat split. }
  destruct vs1 as [M1 rows1], vs2 as [M2 rows2].
  unfold well_shaped in Hl1, Hl2. simpl in *. subst M1 M2.
  destruct (Hfn rows1 Hl1) as (out1 & -> & HP1).
  destruct (Hfn rows2 Hl2) as (out2 & -> & HP2).
  intros [= ->]. f_equal.
  apply (Forall2_functional_l P rows1 rows2 out2); [|done..].
  intros a b m [Ha Hka] [Hb Hkb].
  by apply (lower_triangle_determines_vector N a b m).
Qed.
End VecToTriInjective.

(** [vec_to_tri_injective] on two equal batches of integer vectors. *)
Lemma vec_to_tri_injective_witness :
  mkBatch 3 [[1; 2; 3]]%Z = mkBatch 3 [[1; 2; 3]]%Z.
Proof.
  apply (vec_to_tri_injective 0%Z Z.add Z.add_0_l 2
           (mkBatch 3 [[1; 2; 3]]%Z) (mkBatch 3 [[1; 2; 3]]%Z)).
  - lia.
  - reflexivity.
  - repeat constructor.
  - reflexivity.
  - repeat constructor.
  - reflexivity.
Defined.
